(** * polar-cli: the output rendering and field-projection engine

    A shallow embedding of [src/output/compact.ts], [src/output/table.ts],
    [src/output/csv.ts], [src/output/json.ts], [src/output/fields.ts] and
    [src/output/index.ts], followed by the properties the specification
    states about them.

    Modelling conventions.
    - A JavaScript string is a [string]; every [ascii] stands for one code
      unit, so [String.length] is [.length] and [substring 0 n] is
      [.slice(0, n)].
    - A JavaScript number is an integer [Z] printed in plain decimal, which
      is what [String(n)] yields for the integers the renderers meet (page
      numbers, counts, amounts).  Fractions, NaN and infinities are outside
      the model.
    - A plain object is an association list in insertion order, the order
      [Object.keys] and [Object.entries] enumerate.  Keys are field names:
      the prototype chain and the special enumeration order of array-index
      keys are outside the model. *)

From Stdlib Require Import ZArith Lia Bool List Ascii String.
From Stdlib Require Import Decimal DecimalString DecimalZ.
Import ListNotations.

Set Warnings "-register-all".

Open Scope list_scope.
Open Scope string_scope.

(* ------------------------------------------------------------------ *)
(** ** JavaScript string primitives *)

Module Js.

(** The line feed of ['\n']. *)
Definition LF : string := String (ascii_of_nat 10) EmptyString.

(** The double quote. *)
Definition DQ : ascii := ascii_of_nat 34.

(** [s.slice(0, n)] for a non-negative [n]. *)
Definition slice0 (n : nat) (s : string) : string := substring 0 n s.

(** [s.includes(sub)]: some suffix of [s] starts with [sub]. *)
Fixpoint includes (sub s : string) : bool :=
  prefix sub s ||
  match s with
  | EmptyString => false
  | String _ s' => includes sub s'
  end.

(** [arr.includes(x)] on an array of strings. *)
Definition arr_includes (x : string) (arr : list string) : bool :=
  existsb (String.eqb x) arr.

(** [parts.join(sep)] on an array of strings. *)
Definition join (sep : string) (parts : list string) : string :=
  String.concat sep parts.

(** [s.repeat(n)]. *)
Fixpoint repeat (s : string) (n : nat) : string :=
  match n with
  | O => EmptyString
  | S n' => s ++ repeat s n'
  end.

(** [s.padEnd(n)]: spaces are appended until the length is [n]. *)
Definition padEnd (s : string) (n : nat) : string :=
  s ++ repeat " " (n - String.length s).

(** [s.replace] of every double quote by two of them. *)
Fixpoint double_quotes (s : string) : string :=
  match s with
  | EmptyString => EmptyString
  | String c s' =>
      if Ascii.eqb c DQ then String DQ (String DQ (double_quotes s'))
      else String c (double_quotes s')
  end.

(** [String(n)] for an integer. *)
Definition num_to_string (n : Z) : string :=
  NilEmpty.string_of_int (Z.to_int n).

(** The character class [\d]. *)
Definition is_digit (c : ascii) : bool :=
  (48 <=? nat_of_ascii c)%nat && (nat_of_ascii c <=? 57)%nat.

(** One position of an anchored regular expression without repetition. *)
Inductive atom : Type :=
| Digit : atom
| Lit : ascii -> atom.

Definition atom_matches (a : atom) (c : ascii) : bool :=
  match a with
  | Digit => is_digit c
  | Lit d => Ascii.eqb c d
  end.

(** [/^a1 a2 ... an/.test(s)]. *)
Fixpoint regex_test (re : list atom) (s : string) : bool :=
  match re with
  | [] => true
  | a :: re' =>
      match s with
      | EmptyString => false
      | String c s' => atom_matches a c && regex_test re' s'
      end
  end.

End Js.

(* ------------------------------------------------------------------ *)
(** ** Values and objects *)

(** The values a response can hold ([unknown] in the source).  A [Date]
    carries the text of its [toISOString()] and of its [toString()]. *)
Inductive value : Type :=
| VUndefined : value
| VNull : value
| VBool : bool -> value
| VNum : Z -> value
| VStr : string -> value
| VArr : list value -> value
| VObj : list (string * value) -> value
| VDate : string -> string -> value.

(** [Record<string, unknown>]. *)
Definition object : Type := list (string * value).

Module Obj.

(** [Object.keys(o)]. *)
Definition keys (o : object) : list string := map fst o.

(** The own property [k] of [o], when there is one. *)
Fixpoint lookup (k : string) (o : object) : option value :=
  match o with
  | [] => None
  | (k', v) :: o' => if String.eqb k k' then Some v else lookup k o'
  end.

(** [k in o], for a name [k] that [Object.prototype] does not define:
    the own properties only. *)
Definition has (k : string) (o : object) : bool :=
  match lookup k o with
  | Some _ => true
  | None => false
  end.

(** [o[k]]: [undefined] for a missing property (own properties only, as
    for [has]). *)
Definition get (k : string) (o : object) : value :=
  match lookup k o with
  | Some v => v
  | None => VUndefined
  end.

(** [o[k] = v]: an existing property keeps its place, a new one is added
    last.  This is the enumeration order for keys that are no array
    index. *)
Fixpoint set (k : string) (v : value) (o : object) : object :=
  match o with
  | [] => [(k, v)]
  | (k', v') :: o' =>
      if String.eqb k k' then (k', v) :: o' else (k', v') :: set k v o'
  end.

End Obj.

(** [String(v)]. *)
Fixpoint js_String (v : value) : string :=
  match v with
  | VUndefined => "undefined"
  | VNull => "null"
  | VBool true => "true"
  | VBool false => "false"
  | VNum n => Js.num_to_string n
  | VStr s => s
  | VArr l =>
      Js.join ","
        (map (fun x => match x with
                       | VUndefined | VNull => EmptyString
                       | _ => js_String x
                       end) l)
  | VObj _ => "[object Object]"
  | VDate _ text => text
  end.

(** The rendering of an array element inside [Array.prototype.join]:
    [null] and [undefined] give the empty string. *)
Definition js_join_elem (v : value) : string :=
  match v with
  | VUndefined | VNull => EmptyString
  | _ => js_String v
  end.

(* ------------------------------------------------------------------ *)
(** ** compact.ts *)

Module Compact.

Definition MAX_STRING_LENGTH : nat := 80.

Record PaginationMeta : Type := mkPagination {
  page : Z;
  limit : Z;
  totalCount : Z
}.

(** [formatValue]. *)
Definition formatValue (v : value) : string :=
  match v with
  | VStr s =>
      let s' :=
        if (MAX_STRING_LENGTH <? String.length s)%nat
        then Js.slice0 MAX_STRING_LENGTH s ++ "..."
        else s in
      if Js.includes " " s' then String Js.DQ s' ++ String Js.DQ EmptyString
      else s'
  | _ => js_String v
  end.

(** The regular expression of [isISOTimestamp]:
    four digits, dash, two digits, dash, two digits, T, and a clock
    of three colon-separated pairs of digits. *)
Definition ISO_PREFIX : list Js.atom :=
  [Js.Digit; Js.Digit; Js.Digit; Js.Digit; Js.Lit "-";
   Js.Digit; Js.Digit; Js.Lit "-"; Js.Digit; Js.Digit; Js.Lit "T";
   Js.Digit; Js.Digit; Js.Lit ":"; Js.Digit; Js.Digit; Js.Lit ":";
   Js.Digit; Js.Digit]%char.

Definition isISOTimestamp (v : value) : bool :=
  match v with
  | VStr s => Js.regex_test ISO_PREFIX s
  | _ => false
  end.

Definition compressTimestamp (s : string) : string :=
  Js.slice0 10 s.

(** The full key of a property met under [prefix]. *)
Definition fullKey (prefix key : string) : string :=
  match prefix with
  | EmptyString => key
  | _ => prefix ++ "." ++ key
  end.

(** The body of the loop of [flattenObject]: the entries one property
    [key]/[value] met under [prefix] contributes.  A [Date] is an object
    without own enumerable properties. *)
Fixpoint flattenEntry (prefix key : string) (v : value)
  : list (string * value) :=
  match v with
  | VNull | VUndefined | VStr EmptyString => []
  | VArr l => [(fullKey prefix key, VNum (Z.of_nat (List.length l)))]
  | VObj o =>
      flat_map (fun kv => flattenEntry (fullKey prefix key) (fst kv) (snd kv)) o
  | VDate _ _ => []
  | VStr s =>
      if isISOTimestamp v
      then [(fullKey prefix key, VStr (compressTimestamp s))]
      else [(fullKey prefix key, v)]
  | _ => [(fullKey prefix key, v)]
  end.

(** [flattenObject]. *)
Definition flattenObject (obj : object) (prefix : string)
  : list (string * value) :=
  flat_map (fun kv => flattenEntry prefix (fst kv) (snd kv)) obj.

(** [filterFields]. *)
Definition filterFields (entries : list (string * value))
    (fields : option (list string)) : list (string * value) :=
  match fields with
  | None => entries
  | Some fs => filter (fun kv => Js.arr_includes (fst kv) fs) entries
  end.

(** The text of one flattened entry, [k=formatValue(v)]. *)
Definition pair_text (kv : string * value) : string :=
  fst kv ++ "=" ++ formatValue (snd kv).

(** The key=value pairs of one item, joined by spaces. *)
Definition item_pairs (data : object) (fields : option (list string))
  : string :=
  Js.join " " (map pair_text (filterFields (flattenObject data EmptyString) fields)).

(** [formatCompactItem]. *)
Definition formatCompactItem (type : string) (data : object)
    (fields : option (list string)) : string :=
  type ++ " " ++ item_pairs data fields.

Definition rangeStart (p : PaginationMeta) : Z := (page p - 1) * limit p + 1.

Definition rangeEnd (p : PaginationMeta) (n : nat) : Z :=
  rangeStart p + Z.of_nat n - 1.

(** The header line of a list. *)
Definition header_line (type : string) (p : PaginationMeta) (n : nat)
  : string :=
  type ++ " " ++ Js.num_to_string (rangeStart p) ++ "-" ++
  Js.num_to_string (rangeEnd p n) ++ "/" ++
  Js.num_to_string (totalCount p) ++ " page=" ++ Js.num_to_string (page p).

(** The line of the item at 0-based index [i]. *)
Definition item_line (fields : option (list string)) (i : nat) (item : object)
  : string :=
  "  [" ++ Js.num_to_string (Z.of_nat i + 1) ++ "] " ++ item_pairs item fields.

(** The lines pushed by the loop over the items, from index [i] on. *)
Fixpoint item_lines (fields : option (list string)) (i : nat)
    (items : list object) : list string :=
  match items with
  | [] => []
  | item :: rest => item_line fields i item :: item_lines fields (S i) rest
  end.

(** The hint at the next page. *)
Definition next_line (type : string) (p : PaginationMeta) : string :=
  "next: polar " ++ type ++ " list --page " ++ Js.num_to_string (page p + 1) ++
  " --limit " ++ Js.num_to_string (limit p).

(** The array [lines] of [formatCompactList] when it is joined. *)
Definition list_lines (type : string) (items : list object)
    (p : PaginationMeta) (fields : option (list string)) : list string :=
  let lines := [header_line type p (List.length items)] in
  let lines := (lines ++ item_lines fields 0 items)%list in
  let hasMorePages := (rangeEnd p (List.length items) <? totalCount p)%Z in
  if hasMorePages then (lines ++ [next_line type p])%list else lines.

(** [formatCompactList]. *)
Definition formatCompactList (type : string) (items : list object)
    (p : PaginationMeta) (fields : option (list string)) : string :=
  if (totalCount p =? 0)%Z && (List.length items =? 0)%nat
  then type ++ " 0/0"
  else Js.join Js.LF (list_lines type items p fields).

(** [formatCompactCount]. *)
Definition formatCompactCount (count : Z) : string := Js.num_to_string count.

End Compact.

(* ------------------------------------------------------------------ *)
(** ** Array helpers *)

(** [arr.map((x, i) => f(i, x))], counting from [i]. *)
Fixpoint mapi_from {A B : Type} (f : nat -> A -> B) (i : nat) (l : list A)
  : list B :=
  match l with
  | [] => []
  | x :: l' => f i x :: mapi_from f (S i) l'
  end.

Definition mapi {A B : Type} (f : nat -> A -> B) (l : list A) : list B :=
  mapi_from f 0 l.

(** The column names of a list of items: the union of their keys, each at
    its first appearance. *)
Definition gather_columns (items : list object) : list string :=
  fold_left
    (fun columns item =>
       fold_left
         (fun columns key =>
            if Js.arr_includes key columns then columns
            else (columns ++ [key])%list)
         (Obj.keys item) columns)
    items [].

(* ------------------------------------------------------------------ *)
(** ** table.ts *)

Module Table.

Definition MAX_VALUE_LENGTH : nat := 40.

(** The box-drawing dash of the separator row. *)
Definition DASH : string := "─".

(** [chalk.bold] on a terminal with colours: the bold and normal-intensity
    escape sequences around the text. *)
Definition chalk_bold (s : string) : string :=
  String (ascii_of_nat 27) "[1m" ++ s ++ String (ascii_of_nat 27) "[22m".

Definition isISOTimestamp (v : value) : bool :=
  match v with
  | VStr s => Js.regex_test Compact.ISO_PREFIX s
  | _ => false
  end.

Definition compressTimestamp (s : string) : string := Js.slice0 10 s.

(** The last step of [formatCellValue]: the cut at [MAX_VALUE_LENGTH]. *)
Definition clip (str : string) : string :=
  if (MAX_VALUE_LENGTH <? String.length str)%nat
  then Js.slice0 (MAX_VALUE_LENGTH - 3) str ++ "..."
  else str.

(** [formatCellValue] of the table renderer. *)
Definition formatCellValue (v : value) : string :=
  match v with
  | VNull | VUndefined => EmptyString
  | VArr l => "[" ++ Js.num_to_string (Z.of_nat (List.length l)) ++ "]"
  | VObj obj =>
      if Obj.has "id" obj then js_String (Obj.get "id" obj)
      else "{" ++ Js.num_to_string (Z.of_nat (List.length (Obj.keys obj))) ++
           " keys}"
  | VDate _ _ => "{" ++ Js.num_to_string 0 ++ " keys}"
  | VStr s =>
      if isISOTimestamp v then compressTimestamp s else clip (js_String v)
  | _ => clip (js_String v)
  end.

(** [formatTable]. *)
Definition formatTable (items : list object) (noColor : bool) : string :=
  if (List.length items =? 0)%nat then "No results."
  else
    let useColor := negb noColor in
    let columns := gather_columns items in
    let rows :=
      map (fun item => map (fun col => formatCellValue (Obj.get col item)) columns)
          items in
    let widths :=
      mapi (fun i col =>
              let maxData :=
                fold_left
                  (fun mx row =>
                     Nat.max mx (String.length (nth i row EmptyString)))
                  rows 0%nat in
              Nat.max (String.length col) maxData)
           columns in
    let header :=
      Js.join "  " (mapi (fun i col => Js.padEnd col (nth i widths 0%nat)) columns) in
    let separator := Js.join "  " (map (fun w => Js.repeat DASH w) widths) in
    let dataLines :=
      map (fun row =>
             Js.join "  "
               (mapi (fun i cell => Js.padEnd cell (nth i widths 0%nat)) row))
          rows in
    if useColor
    then Js.join Js.LF (chalk_bold header :: separator :: dataLines)
    else Js.join Js.LF (header :: separator :: dataLines).

(** [formatTableItem]. *)
Definition formatTableItem (type : string) (data : object) (noColor : bool)
  : string :=
  let useColor := negb noColor in
  let entries := data in
  if (List.length entries =? 0)%nat then "No " ++ type ++ " data."
  else
    let keyWidth :=
      fold_left Nat.max (map (fun kv => String.length (fst kv)) entries) 0%nat in
    let separator :=
      Js.repeat DASH keyWidth ++ "  " ++ Js.repeat DASH MAX_VALUE_LENGTH in
    let headerKey := Js.padEnd "Key" keyWidth in
    let headerVal := "Value" in
    let header := headerKey ++ "  " ++ headerVal in
    let lines :=
      map (fun kv =>
             let paddedKey := Js.padEnd (fst kv) keyWidth in
             let val := formatCellValue (snd kv) in
             if useColor then chalk_bold paddedKey ++ "  " ++ val
             else paddedKey ++ "  " ++ val)
          entries in
    if useColor
    then Js.join Js.LF (chalk_bold header :: separator :: lines)
    else Js.join Js.LF (header :: separator :: lines).

End Table.

(* ------------------------------------------------------------------ *)
(** ** csv.ts *)

Module Csv.

Definition isISOTimestamp (v : value) : bool :=
  match v with
  | VStr s => Js.regex_test Compact.ISO_PREFIX s
  | _ => false
  end.

Definition compressTimestamp (s : string) : string := Js.slice0 10 s.

(** [formatCellValue] of the CSV/TSV renderer. *)
Definition formatCellValue (v : value) : string :=
  match v with
  | VNull | VUndefined => EmptyString
  | VDate iso _ => compressTimestamp iso
  | VArr l => "[" ++ Js.num_to_string (Z.of_nat (List.length l)) ++ "]"
  | VObj obj =>
      if Obj.has "id" obj then js_String (Obj.get "id" obj)
      else "{" ++ Js.num_to_string (Z.of_nat (List.length (Obj.keys obj))) ++
           " keys}"
  | VStr s => if isISOTimestamp v then compressTimestamp s else js_String v
  | _ => js_String v
  end.

(** The test of [escapeCell]. *)
Definition needs_quoting (cell delimiter : string) : bool :=
  Js.includes delimiter cell || Js.includes Js.LF cell ||
  Js.includes (String Js.DQ EmptyString) cell.

(** [escapeCell]. *)
Definition escapeCell (cell delimiter : string) : string :=
  if needs_quoting cell delimiter
  then String Js.DQ (Js.double_quotes cell) ++ String Js.DQ EmptyString
  else cell.

(** The header row. *)
Definition header_row (columns : list string) (delimiter : string) : string :=
  Js.join delimiter (map (fun col => escapeCell col delimiter) columns).

(** The row of one item. *)
Definition data_row (columns : list string) (delimiter : string)
    (item : object) : string :=
  Js.join delimiter
    (map (fun col => escapeCell (formatCellValue (Obj.get col item)) delimiter)
         columns).

(** [formatCSV]; [delimiter] is [options?.delimiter]. *)
Definition formatCSV (items : list object) (delimiter : option string)
  : string :=
  if (List.length items =? 0)%nat then EmptyString
  else
    let delimiter :=
      match delimiter with Some d => d | None => "," end in
    let columns := gather_columns items in
    let header := header_row columns delimiter in
    let rows := map (data_row columns delimiter) items in
    Js.join Js.LF (header :: rows).

(** The tabulator. *)
Definition TAB : string := String (ascii_of_nat 9) EmptyString.

(** [formatTSV]. *)
Definition formatTSV (items : list object) : string :=
  formatCSV items (Some TAB).

End Csv.

(* ------------------------------------------------------------------ *)
(** ** json.ts *)

Module Json.

(** The lower-case hexadecimal digit of a number below sixteen. *)
Definition hex_digit (n : nat) : ascii :=
  if (n <? 10)%nat then ascii_of_nat (48 + n) else ascii_of_nat (87 + n).

(** The text of one character inside a JSON string. *)
Definition escape_char (c : ascii) : string :=
  let n := nat_of_ascii c in
  if (n =? 34)%nat then String "\" (String Js.DQ EmptyString)
  else if (n =? 92)%nat then "\\"
  else if (n =? 8)%nat then "\b"
  else if (n =? 9)%nat then "\t"
  else if (n =? 10)%nat then "\n"
  else if (n =? 12)%nat then "\f"
  else if (n =? 13)%nat then "\r"
  else if (n <? 32)%nat
       then "\u00" ++ String (hex_digit (n / 16)) (String (hex_digit (n mod 16)) EmptyString)
  else String c EmptyString.

Fixpoint escape (s : string) : string :=
  match s with
  | EmptyString => EmptyString
  | String c s' => escape_char c ++ escape s'
  end.

(** [JSON.stringify(s)] of a string. *)
Definition quote (s : string) : string :=
  String Js.DQ (escape s) ++ String Js.DQ EmptyString.

(** [JSON.stringify(v)], minified.  Inside an array [undefined] prints as
    [null]; a property whose value is [undefined] is left out.  At the top
    level the program only passes objects. *)
Fixpoint stringify (v : value) : string :=
  match v with
  | VUndefined => "null"
  | VNull => "null"
  | VBool true => "true"
  | VBool false => "false"
  | VNum n => Js.num_to_string n
  | VStr s => quote s
  | VArr l => "[" ++ Js.join "," (map stringify l) ++ "]"
  | VObj o =>
      "{" ++
      Js.join ","
        (flat_map
           (fun kv =>
              match snd kv with
              | VUndefined => []
              | _ => [quote (fst kv) ++ ":" ++ stringify (snd kv)]
              end) o) ++
      "}"
  | VDate iso _ => quote iso
  end.

(** [formatJSON]. *)
Definition formatJSON (data : value) : string := stringify data.

(** [formatJSONL]. *)
Definition formatJSONL (items : list value) : string :=
  Js.join Js.LF (map stringify items).

(** [formatJSONList]. *)
Definition formatJSONList (items : list value) (p : Compact.PaginationMeta)
  : string :=
  stringify
    (VObj [("items", VArr items);
           ("pagination",
            VObj [("page", VNum (Compact.page p));
                  ("limit", VNum (Compact.limit p));
                  ("totalCount", VNum (Compact.totalCount p))])]).

End Json.

(* ------------------------------------------------------------------ *)
(** ** fields.ts *)

Module Fields.

Definition RESOURCE_DEFAULT_FIELDS : list (string * list string) :=
  [("organization", ["id"; "name"; "slug"; "status"]);
   ("product", ["id"; "name"; "isRecurring"; "isArchived"; "prices"; "benefits"]);
   ("subscription",
    ["id"; "status"; "customer"; "product"; "currentPeriodEnd"; "amount";
     "currency"]);
   ("order",
    ["id"; "status"; "product"; "customer"; "totalAmount"; "currency";
     "createdAt"]);
   ("customer", ["id"; "email"; "name"; "type"; "createdAt"]);
   ("checkout", ["id"; "status"; "products"; "totalAmount"; "currency"; "url"]);
   ("checkoutLink", ["id"; "label"; "product"; "url"; "createdAt"]);
   ("benefit", ["id"; "type"; "description"; "organizationId"]);
   ("benefitGrant", ["id"; "benefitId"; "customerId"; "isGranted"; "isRevoked"]);
   ("licenseKey",
    ["id"; "displayKey"; "status"; "customer"; "usage"; "limitActivations"]);
   ("discount", ["id"; "name"; "type"; "amount"; "duration"; "code"]);
   ("customField", ["id"; "type"; "slug"; "name"]);
   ("file", ["id"; "name"; "mimeType"; "size"; "createdAt"]);
   ("refund", ["id"; "status"; "reason"; "amount"; "currency"; "orderId"]);
   ("dispute", ["id"; "status"; "amount"; "currency"; "orderId"]);
   ("payment", ["id"; "status"; "amount"; "currency"; "method"]);
   ("meter", ["id"; "name"; "aggregation"; "createdAt"]);
   ("customerMeter",
    ["id"; "meterId"; "customerId"; "consumedUnits"; "creditedUnits";
     "balance"]);
   ("event", ["id"; "name"; "source"; "customerId"; "timestamp"]);
   ("eventType", ["id"; "name"; "isArchived"]);
   ("webhook", ["id"; "url"; "events"; "enabled"]);
   ("member", ["id"; "email"; "name"; "role"]);
   ("orgToken", ["id"; "comment"; "scopes"; "expiresAt"])].

Inductive FieldSelector : Type :=
| Explicit : list string -> FieldSelector
| All : FieldSelector
| Minimal : FieldSelector.

Fixpoint assoc (k : string) (table : list (string * list string))
  : option (list string) :=
  match table with
  | [] => None
  | (k', fs) :: table' => if String.eqb k k' then Some fs else assoc k table'
  end.

(** [getDefaultFields], for a resource name that [Object.prototype] does
    not define (the table is a plain object). *)
Definition getDefaultFields (resource : string) : list string :=
  match assoc resource RESOURCE_DEFAULT_FIELDS with
  | Some fs => fs
  | None => ["id"]
  end.

(** The priority list of the minimal selector. *)
Definition identifiers : list string :=
  ["name"; "email"; "slug"; "displayKey"; "key"; "url"; "label"].

(** [data[key] !== null && data[key] !== undefined]. *)
Definition is_nullish (v : value) : bool :=
  match v with
  | VNull | VUndefined => true
  | _ => false
  end.

(** The loop of the minimal selector over the identifiers still to try; it
    ends at the first one it copies. *)
Fixpoint minimal_loop (ids : list string) (data result : object) : object :=
  match ids with
  | [] => result
  | key :: ids' =>
      if Obj.has key data && negb (is_nullish (Obj.get key data))
      then Obj.set key (Obj.get key data) result
      else minimal_loop ids' data result
  end.

(** The loop of the explicit selector over the fields still to copy. *)
Fixpoint explicit_loop (fields : list string) (data result : object) : object :=
  match fields with
  | [] => result
  | field :: fields' =>
      explicit_loop fields' data
        (if Obj.has field data then Obj.set field (Obj.get field data) result
         else result)
  end.

(** [selectFields]. *)
Definition selectFields (data : object) (fields : FieldSelector) : object :=
  match fields with
  | All => data
  | Minimal => minimal_loop identifiers data [("id", Obj.get "id" data)]
  | Explicit fs => explicit_loop fs data []
  end.

End Fields.

(* ------------------------------------------------------------------ *)
(** ** index.ts *)

Module Output.

Record OutputOptions : Type := mkOptions {
  format : string;
  fields : option (list string);
  detail : bool;
  quiet : bool;
  noColor : bool
}.

(** [resolveFormat]; an empty string is falsy. *)
Definition resolveFormat (explicit envVar : option string) (isTTY : bool)
  : string :=
  match explicit with
  | Some (String c s) => String c s
  | _ =>
      match envVar with
      | Some (String c s) => String c s
      | _ => if isTTY then "table" else "compact"
      end
  end.

(** [formatList]. *)
Definition formatList (resourceType : string) (items : list object)
    (pagination : Compact.PaginationMeta) (options : OutputOptions) : string :=
  let defaultFields := Fields.getDefaultFields resourceType in
  let fieldSelector :=
    match fields options with
    | Some fs => Fields.Explicit fs
    | None => Fields.Explicit defaultFields
    end in
  let filtered := map (fun item => Fields.selectFields item fieldSelector) items in
  let useFiltered :=
    match fields options with Some _ => true | None => false end in
  if format options =? "count"
  then Compact.formatCompactCount (Compact.totalCount pagination)
  else if format options =? "id"
  then Js.join Js.LF (map (fun item => js_join_elem (Obj.get "id" item)) items)
  else if format options =? "json"
  then Json.formatJSONList
         (map VObj (if useFiltered then filtered else items)) pagination
  else if format options =? "jsonl"
  then Json.formatJSONL (map VObj (if useFiltered then filtered else items))
  else if format options =? "csv"
  then Csv.formatCSV (if useFiltered then filtered else items) None
  else if format options =? "tsv"
  then Csv.formatTSV (if useFiltered then filtered else items)
  else if format options =? "table"
  then Table.formatTable filtered (noColor options)
  else Compact.formatCompactList resourceType filtered pagination
         (fields options).

(** [formatItem]. *)
Definition formatItem (resourceType : string) (data : object)
    (options : OutputOptions) : string :=
  let defaultFields :=
    if detail options then Fields.All
    else match fields options with
         | Some fs => Fields.Explicit fs
         | None => Fields.Explicit (Fields.getDefaultFields resourceType)
         end in
  let filtered := Fields.selectFields data defaultFields in
  if format options =? "id"
  then js_String (if Fields.is_nullish (Obj.get "id" data)
                  then VStr EmptyString else Obj.get "id" data)
  else if format options =? "json"
  then Json.formatJSON
         (VObj (if match fields options with Some _ => true | None => false end
                   || detail options
                then filtered else data))
  else if format options =? "csv"
  then Csv.formatCSV [filtered] None
  else if format options =? "tsv"
  then Csv.formatTSV [filtered]
  else if format options =? "table"
  then Table.formatTableItem resourceType filtered (noColor options)
  else Compact.formatCompactItem resourceType filtered None.

(** [formatDeleted]; [options] is the optional fourth argument. *)
Definition formatDeleted (resourceType id : string)
    (options : option OutputOptions) : string :=
  let format :=
    match options with Some o => format o | None => "compact" end in
  if format =? "json"
  then Json.stringify
         (VObj [("deleted", VBool true); ("id", VStr id);
                ("type", VStr resourceType)])
  else if format =? "id" then id
  else "deleted " ++ resourceType ++ " id=" ++ id.

End Output.

(* ------------------------------------------------------------------ *)
(** ** utils/errors.ts *)

Module Errors.

Record CLIError : Type := mkError {
  type : string;
  code : option Z;
  resource : option string;
  id : option string;
  fields : option (list (string * string));
  message : option string
}.

(** The truthiness of an optional string: present and not empty. *)
Definition given (o : option string) : bool :=
  match o with
  | Some (String _ _) => true
  | _ => false
  end.

(** The text of an optional string inside a template. *)
Definition text (o : option string) : string :=
  match o with
  | Some s => s
  | None => "undefined"
  end.

(** [getHint]; [None] is [undefined]. *)
Definition getHint (error : CLIError) : option string :=
  if type error =? "Unauthorized"
  then Some "Run 'polar auth login --token <your-access-token>' to authenticate. Get your token at https://polar.sh/settings"
  else if type error =? "Forbidden"
  then Some "Check that your token has the required scopes, or use --org to specify an organization"
  else if type error =? "ResourceNotFound"
  then Some (if given (resource error)
             then "Run 'polar " ++ text (resource error) ++
                  "s list' to see available " ++ text (resource error) ++ "s"
             else "Verify the resource ID is correct")
  else if type error =? "ValidationError"
  then Some (if given (resource error)
             then "Run 'polar " ++ text (resource error) ++
                  "s create --help' for required flags and usage"
             else "Check the flag values and try again")
  else if type error =? "RateLimited"
  then Some "Wait a moment and try again. Use --limit to fetch fewer items per request"
  else if type error =? "ServerError"
  then Some "This is a Polar API issue. Check https://status.polar.sh or try again later"
  else if type error =? "ConnectionError"
  then Some "Check your network connection and try again"
  else if type error =? "ConfirmationRequired"
  then Some "Add '--yes' to confirm destructive actions in non-interactive mode"
  else if type error =? "NotImplemented"
  then Some "This operation may not be available in the current API version"
  else None.

(** The line [Detail: <message>], pushed when the message is truthy. *)
Definition detail_line (error : CLIError) : list string :=
  if given (message error) then ["  Detail: " ++ text (message error)] else [].

(** The array [lines] of [formatError]. *)
Definition error_lines (error : CLIError) : list string :=
  if type error =? "Unauthorized"
  then
    ["Error: Not authenticated";
     "  Run 'polar auth login --token <your-access-token>' to authenticate.";
     "  Get your token at https://polar.sh/settings"] ++
    (if given (message error) &&
        negb (text (message error) =? "No access token found") &&
        negb (text (message error) =? "Unauthorized")
     then ["  Detail: " ++ text (message error)] else [])
  else if type error =? "Forbidden"
  then
    ["Error: Access denied" ++
     (if given (resource error) then " for " ++ text (resource error)
      else EmptyString) ++ " (403)"] ++
    detail_line error ++
    ["  Hint: Check that your token has the required scopes for this operation.";
     "  Hint: If accessing an organization resource, use --org <id> to specify the organization."]
  else if type error =? "ResourceNotFound"
  then
    ["Error: " ++
     match resource error with Some r => r | None => "Resource" end ++
     " not found (404)"] ++
    (if given (id error) then ["  ID: " ++ text (id error)] else []) ++
    (if given (resource error)
     then ["  Hint: Run 'polar " ++ text (resource error) ++
           "s list' to see available " ++ text (resource error) ++ "s."]
     else ["  Hint: Verify the resource ID is correct."])
  else if type error =? "ValidationError"
  then
    ["Error: Validation failed (422)"] ++
    match fields error with
    | Some fs => map (fun fm => "  - " ++ fst fm ++ ": " ++ snd fm) fs
    | None => []
    end ++
    (if given (message error) &&
        match fields error with Some _ => false | None => true end
     then ["  Detail: " ++ text (message error)] else []) ++
    (if given (resource error)
     then ["  Hint: Run 'polar " ++ text (resource error) ++
           "s create --help' for required flags and usage."]
     else [])
  else if type error =? "RateLimited"
  then
    ["Error: Rate limit exceeded (429)";
     "  Hint: Wait a moment and try again. Use --limit to fetch fewer items per request."]
  else if type error =? "ServerError"
  then
    ["Error: Polar API error (" ++
     Js.num_to_string (match code error with Some c => c | None => 500%Z end) ++
     ")"] ++
    detail_line error ++
    ["  Hint: This is a server-side issue. Check https://status.polar.sh or try again later."]
  else if type error =? "ConnectionError"
  then
    ["Error: Could not connect to the Polar API"] ++
    detail_line error ++
    ["  Hint: Check your network connection and try again."]
  else if type error =? "ConfirmationRequired"
  then
    ["Error: Confirmation required for destructive action";
     "  Hint: Add '--yes' to confirm, or run in an interactive terminal."]
  else
    ["Error: " ++
     match message error with Some m => m | None => type error end ++
     match code error with
     | Some c =>
         if (c =? 0)%Z then EmptyString
         else " (" ++ Js.num_to_string c ++ ")"
     | None => EmptyString
     end].

(** [formatError]. *)
Definition formatError (error : CLIError) : string :=
  Js.join Js.LF (error_lines error).

(** A value in double quotes, [key="value"]. *)
Definition quoted (key value : string) : string :=
  key ++ "=" ++ String Js.DQ value ++ String Js.DQ EmptyString.

(** The array [parts] of [formatErrorCompact]. *)
Definition error_parts (error : CLIError) : list string :=
  ["error"] ++
  match code error with
  | Some c => ["code=" ++ Js.num_to_string c]
  | None => []
  end ++
  ["type=" ++ type error] ++
  (if given (resource error) then ["resource=" ++ text (resource error)]
   else []) ++
  (if given (id error) then ["id=" ++ text (id error)] else []) ++
  match fields error with
  | Some fs =>
      [quoted "fields"
         (Js.join "; " (map (fun kv => fst kv ++ ": " ++ snd kv) fs))]
  | None => []
  end ++
  (if given (message error)
   then [quoted "message" (Js.slice0 200 (text (message error)))]
   else []) ++
  match getHint error with
  | Some (String c h) => [quoted "hint" (String c h)]
  | _ => []
  end.

(** [formatErrorCompact]. *)
Definition formatErrorCompact (error : CLIError) : string :=
  Js.join " " (error_parts error).

End Errors.

(* ------------------------------------------------------------------ *)
(** ** resources/handler.ts: the list request *)

Module Handler.

Record FlagDef : Type := mkFlag {
  name : string;
  sdkField : string;
  description : string;
  flag_type : string;
  required : option bool
}.

Record OperationDef : Type := mkOperation {
  op_type : string;
  sdkMethod : string;
  op_flags : option (list FlagDef);
  idParam : option string;
  paginatable : option bool
}.

Record ExecuteOptions : Type := mkExecute {
  args : object;
  flags : object;
  output : Output.OutputOptions;
  limit : option Z;
  page : option Z
}.

(** The truthiness of a value. *)
Definition truthy (v : value) : bool :=
  match v with
  | VUndefined | VNull => false
  | VBool b => b
  | VNum n => negb (n =? 0)%Z
  | VStr EmptyString => false
  | _ => true
  end.

(** [a ?? b]. *)
Definition nullish_or (a b : value) : value :=
  if Fields.is_nullish a then b else a.

(** The loop of [buildListRequest] over the flags still to map. *)
Fixpoint map_flags (fs : list FlagDef) (given : object) (req : object)
  : object :=
  match fs with
  | [] => req
  | flag :: fs' =>
      let value :=
        nullish_or (Obj.get (sdkField flag) given)
                   (Obj.get (name flag) given) in
      map_flags fs' given
        (if negb (Fields.is_nullish value)
         then Obj.set (sdkField flag) value req
         else req)
  end.

(** [buildListRequest]. *)
Definition buildListRequest (operation : OperationDef)
    (options : ExecuteOptions) : object :=
  let req : object := [] in
  let req :=
    match paginatable operation with
    | Some false => req
    | _ =>
        Obj.set "page"
          (VNum (match page options with Some n => n | None => 1%Z end))
          (Obj.set "limit"
             (VNum (match limit options with Some n => n | None => 10%Z end))
             req)
    end in
  let req :=
    match op_flags operation with
    | Some fs => map_flags fs (flags options) req
    | None => req
    end in
  if truthy (Obj.get "organizationId" (flags options))
  then Obj.set "organizationId" (Obj.get "organizationId" (flags options)) req
  else req.

End Handler.

(* ------------------------------------------------------------------ *)
(** ** Notions used in the statements *)

(** Every character of [s] satisfies [p]. *)
Fixpoint all_chars (p : ascii -> bool) (s : string) : bool :=
  match s with
  | EmptyString => true
  | String c s' => p c && all_chars p s'
  end.

(** The characters of a printed integer: digits and the minus sign. *)
Definition is_num_char (c : ascii) : bool :=
  Js.is_digit c || Ascii.eqb c "-".

(** The last character of [s] that cannot belong to a printed integer,
    [acc] when there is none. *)
Fixpoint last_sep (s : string) (acc : option ascii) : option ascii :=
  match s with
  | EmptyString => acc
  | String c s' => last_sep s' (if is_num_char c then acc else Some c)
  end.

(** The integers JavaScript holds exactly, [Number.isSafeInteger]. *)
Definition safe_integer (n : Z) : Prop := (- 2 ^ 53 < n < 2 ^ 53)%Z.

(** [x] is added to [acc] unless it is there. *)
Definition add_once (acc : list string) (x : string) : list string :=
  if Js.arr_includes x acc then acc else (acc ++ [x])%list.

(** The elements of [l], each at its first occurrence. *)
Definition first_occurrences (l : list string) : list string :=
  fold_left add_once l [].

(** [sub] occurs in [s]. *)
Definition occurs_in (sub s : string) : Prop :=
  exists a b, s = a ++ sub ++ b.

(** The text of [s] with every double quote written twice. *)
Definition quotes_doubled (s : string) : string :=
  String.concat EmptyString
    (map (fun c => if Ascii.eqb c Js.DQ
                   then String Js.DQ (String Js.DQ EmptyString)
                   else String c EmptyString)
         (list_ascii_of_string s)).

(** The text the compact normalizer keeps of a string. *)
Definition compact_cut (s : string) : string :=
  if (Compact.MAX_STRING_LENGTH <? String.length s)%nat
  then Js.slice0 Compact.MAX_STRING_LENGTH s ++ "..."
  else s.

(** The scalar values: [undefined], [null], booleans, numbers and
    strings. *)
Inductive scalar : value -> Prop :=
| scalar_undefined : scalar VUndefined
| scalar_null : scalar VNull
| scalar_bool : forall b, scalar (VBool b)
| scalar_num : forall n, safe_integer n -> scalar (VNum n)
| scalar_str : forall s, scalar (VStr s).

(** The values a flattened entry can hold: a boolean, a number or a string
    that is not empty. *)
Definition is_leaf (v : value) : bool :=
  match v with
  | VBool _ | VNum _ | VStr (String _ _) => true
  | _ => false
  end.

(** A nested object. *)
Definition is_object (v : value) : bool :=
  match v with
  | VObj _ => true
  | _ => false
  end.


(** The sum of the widths of the columns and of the two spaces between
    neighbours. *)
Fixpoint line_width (widths : list nat) : nat :=
  match widths with
  | [] => 0
  | [w] => w
  | w :: ws => w + 2 + line_width ws
  end.

(** No property of the request holds [null] or [undefined]. *)
Definition clean (req : object) : Prop :=
  forall k v, Obj.lookup k req = Some v -> Fields.is_nullish v = false.

(** The error types [getHint] knows. *)
Definition hinted_types : list string :=
  ["Unauthorized"; "Forbidden"; "ResourceNotFound"; "ValidationError";
   "RateLimited"; "ServerError"; "ConnectionError"; "ConfirmationRequired";
   "NotImplemented"].

(** The names a plain object inherits from [Object.prototype]: the
    operator [in] and an index with such a name find the inherited member,
    which the own-property model of [Obj] does not hold. *)
Definition inherited_names : list string :=
  ["constructor"; "__proto__"; "__defineGetter__"; "__defineSetter__";
   "__lookupGetter__"; "__lookupSetter__"; "hasOwnProperty"; "isPrototypeOf";
   "propertyIsEnumerable"; "toLocaleString"; "toString"; "valueOf"].

(** A name made of digits only.  Every array index is one, and JavaScript
    enumerates keys that are array indices before the others, in numeric
    order, whatever the order of insertion. *)
Definition digits_only (s : string) : bool :=
  match s with
  | EmptyString => false
  | _ => all_chars Js.is_digit s
  end.

(** A field name on which the own-property, insertion-order model of [Obj]
    agrees with JavaScript: no inherited name and no array index. *)
Definition ordinary_name (s : string) : bool :=
  negb (Js.arr_includes s inherited_names) && negb (digits_only s).

(* ================================================================== *)
(** * Properties *)

(* ------------------------------------------------------------------ *)
(** ** Facts about strings *)

Section StringFacts.

Lemma str_length_app (a b : string) :
  String.length (a ++ b) = (String.length a + String.length b)%nat.
Proof. induction a as [|c a IH]; simpl; [reflexivity | now rewrite IH]. Qed.

Lemma app_empty_r (a : string) : a ++ EmptyString = a.
Proof. induction a as [|c a IH]; simpl; [reflexivity | now rewrite IH]. Qed.

Lemma app_assoc_str (a b c : string) : (a ++ b) ++ c = a ++ (b ++ c).
Proof. induction a as [|x a IH]; simpl; [reflexivity | now rewrite IH]. Qed.

Lemma slice0_length (n : nat) (s : string) :
  String.length (Js.slice0 n s) = Nat.min n (String.length s).
Proof.
  unfold Js.slice0. revert s.
  induction n as [|n IH]; intros [|c s]; simpl; try reflexivity.
  now rewrite IH.
Qed.

Lemma slice0_all (n : nat) (s : string) :
  (String.length s <= n)%nat -> Js.slice0 n s = s.
Proof.
  unfold Js.slice0. revert s.
  induction n as [|n IH]; intros [|c s] H; simpl in *; try reflexivity.
  - lia.
  - rewrite IH by lia. reflexivity.
Qed.

Lemma slice0_app (n : nat) (s t : string) :
  (n <= String.length s)%nat -> Js.slice0 n (s ++ t) = Js.slice0 n s.
Proof.
  unfold Js.slice0. revert s.
  induction n as [|n IH]; intros [|c s] H; simpl in *; try reflexivity.
  - now destruct t.
  - lia.
  - rewrite IH by lia. reflexivity.
Qed.

(** A cut that is cut again at the same place is unchanged. *)
Lemma slice0_slice0_app (n : nat) (s t : string) :
  (n <= String.length s)%nat ->
  Js.slice0 n (Js.slice0 n s ++ t) = Js.slice0 n s.
Proof.
  intros H. rewrite slice0_app.
  - apply slice0_all. rewrite slice0_length. lia.
  - rewrite slice0_length. lia.
Qed.

Lemma prefix_app (sub s t : string) :
  prefix sub s = true -> prefix sub (s ++ t) = true.
Proof.
  revert s. induction sub as [|c sub IH]; intros [|d s] H; simpl in *;
    try discriminate.
  - now destruct t.
  - reflexivity.
  - destruct (ascii_dec c d); [now apply IH | discriminate].
Qed.

Lemma includes_nil (sub : string) :
  Js.includes sub EmptyString = prefix sub EmptyString.
Proof. cbn [Js.includes]. apply orb_false_r. Qed.

Lemma includes_String (sub : string) (c : ascii) (s : string) :
  Js.includes sub (String c s) = prefix sub (String c s) || Js.includes sub s.
Proof. reflexivity. Qed.

Lemma includes_app_l (sub s t : string) :
  Js.includes sub s = true -> Js.includes sub (s ++ t) = true.
Proof.
  induction s as [|c s IH]; intros H.
  - rewrite includes_nil in H. destruct sub; [|discriminate].
    destruct t; reflexivity.
  - rewrite includes_String in H. apply orb_true_iff in H.
    change (String c s ++ t) with (String c (s ++ t)).
    rewrite includes_String. destruct H as [H|H].
    + change (String c (s ++ t)) with (String c s ++ t).
      rewrite (prefix_app _ _ _ H). reflexivity.
    + rewrite (IH H). apply orb_true_r.
Qed.

Lemma includes_cons (sub : string) (c : ascii) (s : string) :
  Js.includes sub s = true -> Js.includes sub (String c s) = true.
Proof. intros H. rewrite includes_String, H. apply orb_true_r. Qed.

Lemma prefix_split (sub s : string) :
  prefix sub s = true <-> exists b, s = sub ++ b.
Proof.
  revert s. induction sub as [|c sub IH]; intros [|d s]; simpl.
  - split; [intros _; now exists EmptyString | reflexivity].
  - split; [intros _; now exists (String d s) | reflexivity].
  - split; [discriminate | intros [b Hb]; discriminate].
  - destruct (ascii_dec c d) as [-> | Hne].
    + rewrite IH. split; intros [b Hb]; exists b; [now rewrite Hb|].
      now inversion Hb.
    + split; [discriminate | intros [b Hb]; inversion Hb; congruence].
Qed.

Lemma prefix_char (a c : ascii) (s : string) :
  prefix (String a EmptyString) (String c s) = Ascii.eqb a c.
Proof.
  cbn [prefix]. destruct (ascii_dec a c) as [-> | Hne].
  - rewrite Ascii.eqb_refl. now destruct s.
  - symmetry. now apply Ascii.eqb_neq.
Qed.

(** [includes] finds exactly the substrings. *)
Lemma includes_spec (sub s : string) :
  Js.includes sub s = true <-> exists a b, s = a ++ sub ++ b.
Proof.
  induction s as [|c s IH].
  - rewrite includes_nil, prefix_split. split.
    + intros [b Hb]. exists EmptyString, b. exact Hb.
    + intros [a [b Hb]]. destruct a; simpl in Hb; [now exists b | discriminate].
  - rewrite includes_String, orb_true_iff, prefix_split, IH. split.
    + intros [[b Hb] | [a [b Hb]]].
      * exists EmptyString, b. exact Hb.
      * exists (String c a), b. simpl. now rewrite Hb.
    + intros [a [b Hb]]. destruct a as [|d a]; simpl in Hb.
      * left. now exists b.
      * right. inversion Hb. now exists a, b.
Qed.

(** A regular expression longer than the text does not match. *)
Lemma regex_test_short (re : list Js.atom) (s : string) :
  (String.length s < List.length re)%nat -> Js.regex_test re s = false.
Proof.
  revert s. induction re as [|a re IH]; intros [|c s] H; simpl in *;
    try lia; try reflexivity.
  rewrite IH by lia. apply andb_false_r.
Qed.

(** An anchored regular expression only reads as many characters as it has
    positions. *)
Lemma regex_test_slice0 (re : list Js.atom) (n : nat) (s t : string) :
  (List.length re <= n)%nat -> (n <= String.length s)%nat ->
  Js.regex_test re (Js.slice0 n s ++ t) = Js.regex_test re s.
Proof.
  unfold Js.slice0. revert n s.
  induction re as [|a re IH]; intros n s Hre Hn; simpl; [reflexivity|].
  simpl in Hre. destruct n as [|n]; [lia|].
  destruct s as [|c s]; simpl in *; [lia|].
  rewrite IH by lia. reflexivity.
Qed.

End StringFacts.

(* ------------------------------------------------------------------ *)
(** ** Facts about printed numbers *)

Section NumberFacts.

Lemma uint_chars (d : Decimal.uint) :
  all_chars Js.is_digit (NilEmpty.string_of_uint d) = true.
Proof. induction d; simpl; auto. Qed.

Lemma uint_length (d : Decimal.uint) :
  String.length (NilEmpty.string_of_uint d) = Decimal.nb_digits d.
Proof. induction d; simpl; auto. Qed.

Lemma all_chars_weaken (p q : ascii -> bool) (s : string) :
  (forall c, p c = true -> q c = true) ->
  all_chars p s = true -> all_chars q s = true.
Proof.
  intros Hpq. induction s as [|c s IH]; simpl; [reflexivity|].
  rewrite !andb_true_iff. intros [H1 H2]. auto.
Qed.

Lemma num_chars (n : Z) : all_chars is_num_char (Js.num_to_string n) = true.
Proof.
  assert (W : forall d, all_chars is_num_char (NilEmpty.string_of_uint d) = true).
  { intros d. apply (all_chars_weaken Js.is_digit); [|apply uint_chars].
    intros c Hc. unfold is_num_char. now rewrite Hc. }
  unfold Js.num_to_string. destruct n as [|p|p]; simpl; auto.
Qed.

Lemma last_sep_app (a b : string) (acc : option ascii) :
  last_sep (a ++ b) acc = last_sep b (last_sep a acc).
Proof.
  revert acc. induction a as [|c a IH]; intros acc; simpl; [reflexivity|].
  apply IH.
Qed.

Lemma last_sep_num (s : string) (acc : option ascii) :
  all_chars is_num_char s = true -> last_sep s acc = acc.
Proof.
  revert acc. induction s as [|c s IH]; intros acc; simpl; [reflexivity|].
  rewrite andb_true_iff. intros [Hc Hs]. rewrite Hc. now apply IH.
Qed.

(** Doubling a little-endian decimal adds at most one digit. *)
Lemma double_digits (d : Decimal.uint) :
  (Decimal.nb_digits (Decimal.Little.double d) <= S (Decimal.nb_digits d))%nat /\
  (Decimal.nb_digits (Decimal.Little.succ_double d) <= S (Decimal.nb_digits d))%nat.
Proof. induction d; simpl; lia. Qed.

Lemma little_digits (p : positive) (k : nat) :
  (Z.pos p < 2 ^ Z.of_nat k)%Z ->
  (Decimal.nb_digits (Pos.to_little_uint p) <= k)%nat.
Proof.
  revert k. induction p as [p IH|p IH|]; intros k Hk; simpl.
  - destruct k as [|k]; [simpl in Hk; lia|].
    rewrite Nat2Z.inj_succ, Z.pow_succ_r in Hk by lia.
    specialize (IH k ltac:(lia)).
    pose proof (double_digits (Pos.to_little_uint p)). lia.
  - destruct k as [|k]; [simpl in Hk; lia|].
    rewrite Nat2Z.inj_succ, Z.pow_succ_r in Hk by lia.
    specialize (IH k ltac:(lia)).
    pose proof (double_digits (Pos.to_little_uint p)). lia.
  - destruct k as [|k]; [simpl in Hk; lia | lia].
Qed.

(** A safe integer prints in at most 54 characters. *)
Lemma safe_integer_length (n : Z) :
  safe_integer n -> (String.length (Js.num_to_string n) <= 54)%nat.
Proof.
  unfold safe_integer, Js.num_to_string. intros [Hlo Hhi].
  destruct n as [|p|p]; simpl.
  - lia.
  - rewrite uint_length. unfold Pos.to_uint.
    rewrite DecimalFacts.nb_digits_rev.
    pose proof (little_digits p 53 Hhi). lia.
  - rewrite uint_length. unfold Pos.to_uint.
    rewrite DecimalFacts.nb_digits_rev.
    assert (Hp : (Z.pos p < 2 ^ Z.of_nat 53)%Z) by lia.
    pose proof (little_digits p 53 Hp). lia.
Qed.

(** No printed integer contains a space. *)
Lemma num_no_space (s : string) :
  all_chars is_num_char s = true -> Js.includes " " s = false.
Proof.
  induction s as [|c s IH]; [reflexivity|].
  cbn [all_chars]. rewrite andb_true_iff. intros [Hc Hs].
  rewrite includes_String, (IH Hs), orb_false_r, prefix_char.
  destruct c as [[] [] [] [] [] [] [] []]; try reflexivity; discriminate.
Qed.

End NumberFacts.

(* ------------------------------------------------------------------ *)
(** ** The compact list: header and next-page hint *)

Section CompactList.

Import Compact.

Variables (type : string) (p : PaginationMeta) (fields : option (list string)).

Lemma header_sep (n : nat) : last_sep (header_line type p n) None = Some "="%char.
Proof.
  unfold header_line. rewrite !last_sep_app.
  rewrite (last_sep_num (Js.num_to_string (page p))) by apply num_chars.
  reflexivity.
Qed.

Lemma next_sep : last_sep (next_line type p) None = Some " "%char.
Proof.
  unfold next_line. rewrite !last_sep_app.
  rewrite (last_sep_num (Js.num_to_string (limit p))) by apply num_chars.
  reflexivity.
Qed.

(** The header ends in [page=<n>], the hint in [--limit <m>]. *)
Lemma header_not_next (n : nat) : header_line type p n <> next_line type p.
Proof.
  intros H. pose proof (header_sep n) as Hh. rewrite H, next_sep in Hh.
  discriminate Hh.
Qed.

(** An item line starts with two spaces, the hint with a letter. *)
Lemma item_lines_not_next (i : nat) (items : list object) :
  ~ In (next_line type p) (item_lines fields i items).
Proof.
  revert i. induction items as [|item items IH]; intros i; simpl.
  - tauto.
  - intros [H|H]; [|exact (IH _ H)].
    unfold item_line, next_line in H. simpl in H. discriminate H.
Qed.

Lemma item_lines_length (i : nat) (items : list object) :
  List.length (item_lines fields i items) = List.length items.
Proof.
  revert i. induction items as [|item items IH]; intros i; simpl; auto.
Qed.

Lemma last_in (l : list string) (d : string) : l <> [] -> In (last l d) l.
Proof.
  induction l as [|x l IH]; [congruence|]. intros _.
  destruct l as [|y l]; [now left|].
  right. apply IH. discriminate.
Qed.

End CompactList.

(** C1.  A compact list that is not the empty result (total 0 and no item)
    is the join of the lines the renderer pushes.  The first of them is the
    header [<plural> <start>-<end>/<totalCount> page=<page>] with
    [start = (page-1)*limit + 1] and [end = start + n - 1]; the hint
    [next: polar <plural> list --page <page+1> --limit <limit>] is a line of
    the output, and then the last one after the header and the [n] item
    lines, if and only if [end < totalCount]. *)
Theorem compact_list_header_and_next
    (type : string) (items : list object) (p : Compact.PaginationMeta)
    (fields : option (list string)) :
  ~ (Compact.totalCount p = 0%Z /\ items = []) ->
  let n := Z.of_nat (List.length items) in
  let first := ((Compact.page p - 1) * Compact.limit p + 1)%Z in
  let final := (first + n - 1)%Z in
  let header :=
    type ++ " " ++ Js.num_to_string first ++ "-" ++ Js.num_to_string final ++
    "/" ++ Js.num_to_string (Compact.totalCount p) ++
    " page=" ++ Js.num_to_string (Compact.page p) in
  let next :=
    "next: polar " ++ type ++ " list --page " ++
    Js.num_to_string (Compact.page p + 1) ++
    " --limit " ++ Js.num_to_string (Compact.limit p) in
  let lines := Compact.list_lines type items p fields in
  Compact.formatCompactList type items p fields = Js.join Js.LF lines /\
  hd_error lines = Some header /\
  (In next lines <-> (final < Compact.totalCount p)%Z) /\
  (last lines EmptyString = next <-> (final < Compact.totalCount p)%Z) /\
  List.length lines =
    (1 + List.length items +
     (if (final <? Compact.totalCount p)%Z then 1 else 0))%nat.
Proof.
  intros Hne n first final header next lines.
  assert (Hlines :
    lines = ((header :: Compact.item_lines fields 0 items) ++
             (if (final <? Compact.totalCount p)%Z then [next] else []))%list).
  { unfold lines, Compact.list_lines.
    change (Compact.rangeEnd p (List.length items)) with final.
    destruct (final <? Compact.totalCount p)%Z;
      [reflexivity | now rewrite app_nil_r]. }
  assert (Hnotin : ~ In next (header :: Compact.item_lines fields 0 items)).
  { intros [H|H].
    - exact (header_not_next type p (List.length items) H).
    - exact (item_lines_not_next type p fields 0 items H). }
  repeat split.
  - unfold Compact.formatCompactList.
    destruct (Z.eqb_spec (Compact.totalCount p) 0) as [Ht|Ht];
      [|reflexivity].
    destruct items as [|item items]; [|reflexivity].
    exfalso. apply Hne. now split.
  - now rewrite Hlines.
  - rewrite Hlines. intros H. apply in_app_or in H. destruct H as [H|H].
    + contradiction.
    + destruct (Z.ltb_spec final (Compact.totalCount p));
        [assumption | contradiction].
  - intros H. apply Z.ltb_lt in H. rewrite Hlines, H.
    apply in_or_app. right. now left.
  - rewrite Hlines. intros H.
    destruct (Z.ltb_spec final (Compact.totalCount p)); [assumption|].
    exfalso. apply Hnotin. rewrite app_nil_r in H. rewrite <- H.
    apply last_in. discriminate.
  - intros H. apply Z.ltb_lt in H. rewrite Hlines, H. apply last_last.
  - rewrite Hlines, List.length_app. simpl.
    rewrite item_lines_length.
    destruct (final <? Compact.totalCount p)%Z; simpl; lia.
Qed.

(** The theorem at the second test of the next-page hint: one item on page
    1 of 5. *)
Lemma compact_list_header_and_next_witness :
  Compact.formatCompactList "products"
    [[("id", VStr "prod_123"); ("name", VStr "Pro")]]
    (Compact.mkPagination 1 1 5) None =
  "products 1-1/5 page=1" ++ Js.LF ++ "  [1] id=prod_123 name=Pro" ++ Js.LF ++
  "next: polar products list --page 2 --limit 1".
Proof.
  destruct (compact_list_header_and_next "products"
              [[("id", VStr "prod_123"); ("name", VStr "Pro")]]
              (Compact.mkPagination 1 1 5) None) as [H _].
  - intros [H _]. discriminate H.
  - rewrite H. reflexivity.
Defined.

(* ------------------------------------------------------------------ *)
(** ** Empty collections and the single-item dispatch *)

(** C9.  For an empty collection the table list renderer returns exactly
    [No results.], the CSV/TSV renderer the empty string, without a header
    row, and the compact list renderer with total 0 and no item exactly
    [<plural> 0/0]. *)
Theorem empty_collection_renderings :
  (forall noColor : bool, Table.formatTable [] noColor = "No results.") /\
  (forall delimiter : option string,
     Csv.formatCSV [] delimiter = EmptyString) /\
  Csv.formatTSV [] = EmptyString /\
  (forall (plural : string) (page limit : Z) (fields : option (list string)),
     Compact.formatCompactList plural []
       (Compact.mkPagination page limit 0) fields = plural ++ " 0/0") /\
  (forall (plural : string) (p : Compact.PaginationMeta)
          (fields : option (list string)) (detail quiet noColor : bool),
     let options format :=
       Output.mkOptions format fields detail quiet noColor in
     Output.formatList plural [] p (options "table") = "No results." /\
     Output.formatList plural [] p (options "csv") = EmptyString /\
     Output.formatList plural [] p (options "tsv") = EmptyString /\
     (Compact.totalCount p = 0%Z ->
      Output.formatList plural [] p (options "compact") = plural ++ " 0/0")).
Proof.
  repeat split.
  - now destruct fields.
  - now destruct fields.
  - intros Hzero. unfold Output.formatList. cbn.
    unfold Compact.formatCompactList. now rewrite Hzero.
Qed.

(** The theorem on the empty product list of the tests. *)
Lemma empty_collection_renderings_witness :
  Output.formatList "products" [] (Compact.mkPagination 1 10 0)
    (Output.mkOptions "compact" None false false false) = "products 0/0".
Proof.
  destruct empty_collection_renderings as [_ [_ [_ [_ H]]]].
  destruct (H "products" (Compact.mkPagination 1 10 0) None false false false)
    as [_ [_ [_ Hcompact]]].
  apply Hcompact. reflexivity.
Defined.

(** C10.  [formatItem] has no branch for the formats jsonl and count: both
    give the compact single-item rendering of the projected item. *)
Theorem formatItem_jsonl_count_are_compact
    (resourceType : string) (data : object) (fields : option (list string))
    (detail quiet noColor : bool) :
  let selector :=
    if detail then Fields.All
    else match fields with
         | Some fs => Fields.Explicit fs
         | None => Fields.Explicit (Fields.getDefaultFields resourceType)
         end in
  let compact :=
    Compact.formatCompactItem resourceType
      (Fields.selectFields data selector) None in
  Output.formatItem resourceType data
    (Output.mkOptions "jsonl" fields detail quiet noColor) = compact /\
  Output.formatItem resourceType data
    (Output.mkOptions "count" fields detail quiet noColor) = compact /\
  Output.formatItem "product"
    [("id", VStr "prod_123"); ("name", VStr "Starter");
     ("description", VStr "Great")]
    (Output.mkOptions "jsonl" None false false false) =
  "product id=prod_123 name=Starter" /\
  Output.formatItem "product"
    [("id", VStr "prod_123"); ("name", VStr "Starter");
     ("description", VStr "Great")]
    (Output.mkOptions "count" None false false false) =
  "product id=prod_123 name=Starter".
Proof. repeat split. Qed.

(* ------------------------------------------------------------------ *)
(** ** The field projector *)

Section Projector.

Lemma arr_includes_In (x : string) (l : list string) :
  Js.arr_includes x l = true <-> In x l.
Proof.
  unfold Js.arr_includes. rewrite existsb_exists. split.
  - intros [y [Hy Heq]]. apply String.eqb_eq in Heq. now subst.
  - intros H. exists x. split; [assumption | apply String.eqb_refl].
Qed.

Lemma arr_includes_not_In (x : string) (l : list string) :
  Js.arr_includes x l = false <-> ~ In x l.
Proof.
  rewrite <- arr_includes_In. destruct (Js.arr_includes x l); split;
    congruence.
Qed.

Lemma keys_set (k : string) (v : value) (o : object) :
  Obj.keys (Obj.set k v o) =
  if Js.arr_includes k (Obj.keys o) then Obj.keys o
  else (Obj.keys o ++ [k])%list.
Proof.
  induction o as [|[k' v'] o IH]; simpl; [reflexivity|].
  destruct (String.eqb k k') eqn:E; simpl; [reflexivity|].
  rewrite IH. unfold Js.arr_includes.
  now destruct (existsb (String.eqb k) (Obj.keys o)).
Qed.

Lemma lookup_set (k' k : string) (v : value) (o : object) :
  Obj.lookup k' (Obj.set k v o) =
  if String.eqb k' k then Some v else Obj.lookup k' o.
Proof.
  induction o as [|[k0 v0] o IH]; simpl; [reflexivity|].
  destruct (String.eqb_spec k k0) as [-> | Hk]; simpl.
  - now destruct (String.eqb k' k0).
  - rewrite IH. destruct (String.eqb_spec k' k0) as [-> | Hk0];
      [|reflexivity].
    destruct (String.eqb_spec k0 k); congruence.
Qed.

Lemma lookup_In_keys (k : string) (o : object) :
  In k (Obj.keys o) <-> exists v, Obj.lookup k o = Some v.
Proof.
  induction o as [|[k0 v0] o IH]; simpl.
  - split; [tauto | intros [v Hv]; discriminate].
  - destruct (String.eqb_spec k k0) as [-> | Hk].
    + split; [intros _; now exists v0 | now left].
    + rewrite <- IH. split; [intros [H|H]; congruence | now right].
Qed.

Lemma has_true (k : string) (o : object) :
  Obj.has k o = true <-> exists v, Obj.lookup k o = Some v.
Proof.
  unfold Obj.has. destruct (Obj.lookup k o) as [v|].
  - split; [intros _; now exists v | reflexivity].
  - split; [discriminate | intros [v Hv]; discriminate].
Qed.

Lemma add_once_In (acc : list string) (x k : string) :
  In k (add_once acc x) <-> In k acc \/ k = x.
Proof.
  unfold add_once. destruct (Js.arr_includes x acc) eqn:E.
  - apply arr_includes_In in E. split; [now left|].
    intros [H | ->]; assumption.
  - rewrite in_app_iff. simpl. intuition congruence.
Qed.

Lemma add_once_NoDup (acc : list string) (x : string) :
  NoDup acc -> NoDup (add_once acc x).
Proof.
  intros H. unfold add_once. destruct (Js.arr_includes x acc) eqn:E;
    [assumption|].
  apply arr_includes_not_In in E.
  apply NoDup_app; [assumption | repeat constructor; simpl; tauto |].
  intros y Hy [<- | []]. contradiction.
Qed.

Lemma fold_add_once_In (l acc : list string) (k : string) :
  In k (fold_left add_once l acc) <-> In k acc \/ In k l.
Proof.
  revert acc. induction l as [|x l IH]; intros acc; simpl; [tauto|].
  rewrite IH, add_once_In. intuition congruence.
Qed.

Lemma fold_add_once_NoDup (l acc : list string) :
  NoDup acc -> NoDup (fold_left add_once l acc).
Proof.
  revert acc. induction l as [|x l IH]; intros acc H; simpl; [assumption|].
  apply IH, add_once_NoDup, H.
Qed.

Lemma fold_add_once_fresh (l acc : list string) :
  NoDup (acc ++ l) -> fold_left add_once l acc = (acc ++ l)%list.
Proof.
  revert acc. induction l as [|x l IH]; intros acc H; simpl.
  - now rewrite app_nil_r.
  - assert (Hx : ~ In x acc).
    { intros Hin. apply NoDup_remove_2 in H. apply H.
      apply in_or_app. now left. }
    unfold add_once at 2. apply arr_includes_not_In in Hx. rewrite Hx.
    rewrite IH; rewrite <- app_assoc; [reflexivity | exact H].
Qed.

(** The keys the explicit loop leaves. *)
Lemma explicit_loop_keys (fs : list string) (data result : object) :
  Obj.keys (Fields.explicit_loop fs data result) =
  fold_left add_once (filter (fun f => Obj.has f data) fs) (Obj.keys result).
Proof.
  revert result. induction fs as [|f fs IH]; intros result; simpl;
    [reflexivity|].
  rewrite IH. destruct (Obj.has f data); simpl; [|reflexivity].
  now rewrite keys_set.
Qed.

(** The values the explicit loop leaves are those of the item. *)
Lemma explicit_loop_values (fs : list string) (data result : object) :
  (forall k v, Obj.lookup k result = Some v -> Obj.lookup k data = Some v) ->
  forall k v,
    Obj.lookup k (Fields.explicit_loop fs data result) = Some v ->
    Obj.lookup k data = Some v.
Proof.
  revert result. induction fs as [|f fs IH]; intros result Hres k v; simpl;
    [apply Hres|].
  apply IH. clear k v. intros k v.
  destruct (Obj.has f data) eqn:Hf; [|apply Hres].
  rewrite lookup_set. destruct (String.eqb_spec k f) as [-> | Hk];
    [|apply Hres].
  unfold Obj.has, Obj.get in *. destruct (Obj.lookup f data);
    [tauto | discriminate].
Qed.

End Projector.

(** C6.  Projection on an explicit list of field names, none of them an
    inherited name or an array index, yields the listed names the item has
    as a property, a property holding [null] or [undefined] included, in
    list order (each at its first occurrence when the list repeats a
    name), each bound to the value the item has for it; a name the item
    does not have is skipped.  The function is total. *)
Theorem explicit_selector_projection (data : object) (fs : list string) :
  Forall (fun f => ordinary_name f = true) fs ->
  let r := Fields.selectFields data (Fields.Explicit fs) in
  let present := filter (fun f => Obj.has f data) fs in
  Obj.keys r = first_occurrences present /\
  (NoDup fs -> Obj.keys r = present) /\
  (forall k, In k (Obj.keys r) <-> In k fs /\ Obj.has k data = true) /\
  (forall k, In k (Obj.keys r) -> Obj.lookup k r = Obj.lookup k data) /\
  (forall k, In k fs -> Obj.lookup k data = Some VNull ->
             Obj.lookup k r = Some VNull) /\
  NoDup (Obj.keys r).
Proof.
  intros _ r present.
  assert (Hkeys : Obj.keys r = first_occurrences present).
  { unfold r, Fields.selectFields. now rewrite explicit_loop_keys. }
  assert (Hin : forall k, In k (Obj.keys r) <-> In k fs /\ Obj.has k data = true).
  { intros k. rewrite Hkeys. unfold first_occurrences.
    rewrite fold_add_once_In. unfold present. rewrite filter_In.
    simpl. tauto. }
  assert (Hval : forall k, In k (Obj.keys r) -> Obj.lookup k r = Obj.lookup k data).
  { intros k Hk. apply lookup_In_keys in Hk. destruct Hk as [v Hv].
    rewrite Hv. symmetry.
    apply (explicit_loop_values fs data [] ltac:(discriminate) k v Hv). }
  repeat split.
  - exact Hkeys.
  - intros Hnd. rewrite Hkeys. unfold first_occurrences.
    apply fold_add_once_fresh. simpl. now apply NoDup_filter.
  - now apply Hin.
  - now apply Hin.
  - intros [H1 H2]. apply Hin. now split.
  - exact Hval.
  - intros k Hk Hnull. rewrite Hval; [assumption|].
    apply Hin. split; [assumption|]. apply has_true. now exists VNull.
  - rewrite Hkeys. apply fold_add_once_NoDup. constructor.
Qed.

(** The theorem on an item with a [null] name, asked for a missing field
    and for the name before the id. *)
Lemma explicit_selector_projection_witness :
  let data := [("id", VStr "c1"); ("name", VNull); ("email", VStr "a@b.c")] in
  let r := Fields.selectFields data (Fields.Explicit ["name"; "phone"; "id"]) in
  Obj.keys r = ["name"; "id"] /\ Obj.lookup "name" r = Some VNull.
Proof.
  intros data r.
  destruct (explicit_selector_projection data ["name"; "phone"; "id"])
    as [_ [Hnodup [_ [_ [Hnull _]]]]];
    [repeat constructor|].
  split.
  - apply Hnodup. repeat constructor; simpl; intuition discriminate.
  - apply Hnull; [simpl; tauto | reflexivity].
Defined.

(** The shape of the minimal projection. *)
Lemma minimal_shape (data : object) :
  Fields.selectFields data Fields.Minimal =
  ("id", Obj.get "id" data) ::
  match
    find (fun k => Obj.has k data && negb (Fields.is_nullish (Obj.get k data)))
         ["name"; "email"; "slug"; "displayKey"; "key"; "url"; "label"]
  with
  | Some k => [(k, Obj.get k data)]
  | None => []
  end.
Proof.
  unfold Fields.selectFields, Fields.identifiers.
  cbn [Fields.minimal_loop find].
  repeat
    match goal with
    | |- context [if ?b && ?c then _ else _] =>
        destruct (b && c); [reflexivity|]
    end.
  reflexivity.
Qed.

(** C7.  The minimal selector yields the key [id], bound to the value the
    item has for it ([undefined] when it has none), followed by at most one
    more key: the first name of the priority list that the item holds with
    a value other than [null] and [undefined].  The result has at most two
    keys. *)
Theorem minimal_selector_projection (data : object) :
  let r := Fields.selectFields data Fields.Minimal in
  let identifying k :=
    Obj.has k data && negb (Fields.is_nullish (Obj.get k data)) in
  r = ("id", Obj.get "id" data) ::
      match
        find identifying
             ["name"; "email"; "slug"; "displayKey"; "key"; "url"; "label"]
      with
      | Some k => [(k, Obj.get k data)]
      | None => []
      end /\
  Obj.lookup "id" r = Some (Obj.get "id" data) /\
  (Obj.lookup "id" data = None -> Obj.lookup "id" r = Some VUndefined) /\
  (List.length (Obj.keys r) <= 2)%nat.
Proof.
  intros r identifying. unfold r. rewrite minimal_shape.
  fold identifying. repeat split.
  - intros H. simpl. unfold Obj.get. now rewrite H.
  - destruct (find identifying _); simpl; lia.
Qed.

(** The theorem on an item without id whose first identifying field is the
    email, the name being [null]. *)
Lemma minimal_selector_projection_witness :
  let data := [("name", VNull); ("email", VStr "a@b.c"); ("slug", VStr "s")] in
  Fields.selectFields data Fields.Minimal =
  [("id", VUndefined); ("email", VStr "a@b.c")] /\
  Obj.lookup "id" (Fields.selectFields data Fields.Minimal) = Some VUndefined.
Proof.
  intros data.
  destruct (minimal_selector_projection data) as [Hshape [_ [Hid _]]].
  split.
  - rewrite Hshape. reflexivity.
  - apply Hid. reflexivity.
Defined.

(* ------------------------------------------------------------------ *)
(** ** CSV and TSV *)

Lemma concat_empty_cons (x : string) (l : list string) :
  String.concat EmptyString (x :: l) = x ++ String.concat EmptyString l.
Proof. destruct l; simpl; [now rewrite app_empty_r | reflexivity]. Qed.

Lemma double_quotes_spec (s : string) : Js.double_quotes s = quotes_doubled s.
Proof.
  unfold quotes_doubled. induction s as [|c s IH]; [reflexivity|].
  cbn [list_ascii_of_string map Js.double_quotes].
  rewrite concat_empty_cons, <- IH.
  now destruct (Ascii.eqb c Js.DQ).
Qed.

Lemma needs_quoting_spec (cell delimiter : string) :
  Csv.needs_quoting cell delimiter = true <->
  occurs_in delimiter cell \/ occurs_in Js.LF cell \/
  occurs_in (String Js.DQ EmptyString) cell.
Proof.
  unfold Csv.needs_quoting, occurs_in.
  rewrite !orb_true_iff, !includes_spec. tauto.
Qed.

(** C8.  A cell is wrapped in double quotes, every double quote inside it
    written twice, exactly when it contains the delimiter, a line feed or a
    double quote, and is left as it is otherwise.  A list that is not empty
    is rendered as the header row, the escaped column names joined by the
    delimiter, followed by one row per item, a single item included, each
    row the escaped cells of the item joined by the delimiter; and the
    rendering of the item with id [a] and name
    [Plan, Pro] has the first line [id,name] and the second line [a,]
    followed by the name in double quotes. *)
Theorem csv_quoting_and_header :
  (forall cell delimiter : string,
     occurs_in delimiter cell \/ occurs_in Js.LF cell \/
     occurs_in (String Js.DQ EmptyString) cell ->
     Csv.escapeCell cell delimiter =
     String Js.DQ (quotes_doubled cell) ++ String Js.DQ EmptyString) /\
  (forall cell delimiter : string,
     ~ (occurs_in delimiter cell \/ occurs_in Js.LF cell \/
        occurs_in (String Js.DQ EmptyString) cell) ->
     Csv.escapeCell cell delimiter = cell) /\
  (forall (items : list object) (delimiter : option string),
     items <> [] ->
     let d := match delimiter with Some d => d | None => "," end in
     let columns := gather_columns items in
     let header :=
       Js.join d (map (fun col => Csv.escapeCell col d) columns) in
     let rows :=
       map (fun item =>
              Js.join d
                (map (fun col =>
                        Csv.escapeCell
                          (Csv.formatCellValue (Obj.get col item)) d)
                     columns))
           items in
     Csv.formatCSV items delimiter = Js.join Js.LF (header :: rows) /\
     List.length rows = List.length items) /\
  Csv.formatCSV [[("id", VStr "a"); ("name", VStr "Plan, Pro")]] None =
  "id,name" ++ Js.LF ++ "a," ++
  String Js.DQ "Plan, Pro" ++ String Js.DQ EmptyString.
Proof.
  repeat split.
  - intros cell delimiter H. apply needs_quoting_spec in H.
    unfold Csv.escapeCell. now rewrite H, double_quotes_spec.
  - intros cell delimiter H. unfold Csv.escapeCell.
    destruct (Csv.needs_quoting cell delimiter) eqn:E; [|reflexivity].
    apply needs_quoting_spec in E. contradiction.
  - destruct items as [|item items]; [congruence | reflexivity].
  - apply length_map.
Qed.

(** The theorem at the cell and the single-row list of the test on values
    with commas. *)
Lemma csv_quoting_and_header_witness :
  Csv.escapeCell "Plan, Pro" "," =
  String Js.DQ "Plan, Pro" ++ String Js.DQ EmptyString /\
  Csv.escapeCell "Starter" "," = "Starter" /\
  Csv.formatCSV [[("id", VStr "a"); ("name", VStr "Starter")]] None =
  "id,name" ++ Js.LF ++ "a,Starter".
Proof.
  destruct csv_quoting_and_header as [Hq [Hn [Hrows _]]].
  split; [|split].
  - rewrite (Hq "Plan, Pro" ","); [reflexivity|].
    left. exists "Plan", " Pro". reflexivity.
  - apply Hn. intros H. apply needs_quoting_spec in H. discriminate H.
  - destruct (Hrows [[("id", VStr "a"); ("name", VStr "Starter")]] None)
      as [H _]; [discriminate|].
    rewrite H. reflexivity.
Defined.

(* ------------------------------------------------------------------ *)
(** ** Truncation *)

Section Truncation.

Lemma formatValue_string (s : string) :
  Compact.formatValue (VStr s) =
  if Js.includes " " (compact_cut s)
  then String Js.DQ (compact_cut s) ++ String Js.DQ EmptyString
  else compact_cut s.
Proof. reflexivity. Qed.

Lemma compact_cut_long (s : string) :
  (80 < String.length s)%nat ->
  compact_cut s = Js.slice0 80 s ++ "..." /\
  String.length (compact_cut s) = 83%nat.
Proof.
  intros H. unfold compact_cut, Compact.MAX_STRING_LENGTH.
  destruct (Nat.ltb_spec 80 (String.length s)) as [_|H']; [|lia].
  split; [reflexivity|].
  rewrite str_length_app, slice0_length.
  change (String.length "...") with 3%nat. lia.
Qed.

Lemma compact_cut_short (s : string) :
  (String.length s <= 80)%nat -> compact_cut s = s.
Proof.
  intros H. unfold compact_cut, Compact.MAX_STRING_LENGTH.
  destruct (Nat.ltb_spec 80 (String.length s)); [lia | reflexivity].
Qed.

Lemma compact_cut_idem (s : string) : compact_cut (compact_cut s) = compact_cut s.
Proof.
  destruct (Nat.le_gt_cases (String.length s) 80) as [H|H].
  - rewrite (compact_cut_short s H). exact (compact_cut_short s H).
  - destruct (compact_cut_long s H) as [Hcut Hlen].
    assert (Hlong : (80 < String.length (compact_cut s))%nat) by lia.
    destruct (compact_cut_long _ Hlong) as [Hcut' _].
    rewrite Hcut'. rewrite Hcut at 1.
    rewrite slice0_slice0_app by lia. now rewrite Hcut.
Qed.

Lemma table_clip_long (s : string) :
  (40 < String.length s)%nat ->
  Table.clip s = Js.slice0 37 s ++ "..." /\
  String.length (Table.clip s) = 40%nat.
Proof.
  intros H. unfold Table.clip, Table.MAX_VALUE_LENGTH.
  destruct (Nat.ltb_spec 40 (String.length s)) as [_|H']; [|lia].
  split; [reflexivity|].
  rewrite str_length_app, slice0_length.
  change (String.length "...") with 3%nat. lia.
Qed.

Lemma table_clip_short (s : string) :
  (String.length s <= 40)%nat -> Table.clip s = s.
Proof.
  intros H. unfold Table.clip, Table.MAX_VALUE_LENGTH.
  destruct (Nat.ltb_spec 40 (String.length s)); [lia | reflexivity].
Qed.

End Truncation.

(** C4 as stated fails: the compact normalizer keeps 80 characters of a
    string of 81, not 77, and the rendering is 83 characters long, not 80;
    the table-cell normalizer renders a string of 49 characters that starts
    with a date-time as the date. *)
Lemma compact_truncation_keeps_80 :
  let s := Js.repeat "a" 81 in
  let t := "2024-01-15T10:30:00" ++ Js.repeat "x" 30 in
  String.length s = 81%nat /\
  String.length (Compact.formatValue (VStr s)) = 83%nat /\
  Compact.formatValue (VStr s) <>
  Js.slice0 (Compact.MAX_STRING_LENGTH - 3) s ++ "..." /\
  String.length t = 49%nat /\
  Table.formatCellValue (VStr t) = "2024-01-15".
Proof.
  intros s t. split; [reflexivity|]. split; [reflexivity|].
  split; [|split; reflexivity].
  intros H. apply (f_equal String.length) in H. vm_compute in H.
  discriminate H.
Qed.

(** C4, amended.  Of a string longer than 80 characters the compact
    normalizer keeps the first 80 and appends three dots, 83 characters,
    which it wraps in double quotes when they contain a space.  Of a string
    longer than 40 characters that does not start with an ISO date-time the
    table-cell normalizer renders the first 37 characters and three dots,
    exactly 40 characters. *)
Theorem truncation_of_long_strings (s : string) :
  ((80 < String.length s)%nat ->
   let kept := Js.slice0 80 s ++ "..." in
   String.length kept = 83%nat /\
   Compact.formatValue (VStr s) =
   (if Js.includes " " kept
    then String Js.DQ kept ++ String Js.DQ EmptyString
    else kept)) /\
  ((40 < String.length s)%nat ->
   Table.isISOTimestamp (VStr s) = false ->
   Table.formatCellValue (VStr s) = Js.slice0 37 s ++ "..." /\
   String.length (Table.formatCellValue (VStr s)) = 40%nat).
Proof.
  split.
  - intros H kept. destruct (compact_cut_long s H) as [Hcut Hlen].
    rewrite formatValue_string, Hcut in *. now split.
  - intros H Hiso. destruct (table_clip_long s H) as [Hclip Hlen].
    unfold Table.formatCellValue. rewrite Hiso.
    cbn [js_String]. now rewrite <- Hclip.
Qed.

(** The theorem at the string of 120 letters of the truncation test. *)
Lemma truncation_of_long_strings_witness :
  Compact.formatValue (VStr (Js.repeat "A" 120)) = Js.repeat "A" 80 ++ "..." /\
  Table.formatCellValue (VStr (Js.repeat "A" 120)) =
  Js.repeat "A" 37 ++ "...".
Proof.
  destruct (truncation_of_long_strings (Js.repeat "A" 120)) as [Hc Ht].
  split.
  - destruct Hc as [_ Hc]; [apply Nat.ltb_lt; reflexivity|].
    rewrite Hc. reflexivity.
  - destruct Ht as [Ht _]; [apply Nat.ltb_lt; reflexivity | reflexivity|].
    rewrite Ht. reflexivity.
Defined.

(* ------------------------------------------------------------------ *)
(** ** Normalizing twice *)

Section Idempotence.

Lemma num_char_not (c x : ascii) :
  is_num_char c = false -> is_num_char x = true -> Ascii.eqb x c = false.
Proof.
  intros Hc Hx. apply Ascii.eqb_neq. intros ->. congruence.
Qed.

(** A text of digits and minus signs fails a regular expression that asks
    for another character at some position. *)
Lemma regex_test_num (re1 re2 : list Js.atom) (c : ascii) (s : string) :
  is_num_char c = false ->
  all_chars is_num_char s = true ->
  Js.regex_test (re1 ++ Js.Lit c :: re2)%list s = false.
Proof.
  intros Hc. revert s.
  induction re1 as [|a re1 IH]; intros [|x s] Hs; simpl in *;
    try reflexivity; apply andb_true_iff in Hs; destruct Hs as [Hx Hs].
  - now rewrite (num_char_not c x Hc Hx).
  - rewrite (IH s Hs). apply andb_false_r.
Qed.

Lemma iso_not_num (s : string) :
  all_chars is_num_char s = true -> Js.regex_test Compact.ISO_PREFIX s = false.
Proof.
  intros Hs.
  change Compact.ISO_PREFIX with
    (firstn 10 Compact.ISO_PREFIX ++ Js.Lit "T" :: skipn 11 Compact.ISO_PREFIX)%list.
  now apply regex_test_num.
Qed.

(** A clipped text that was no timestamp is rendered as it is. *)
Lemma table_clip_fixed (s : string) :
  Js.regex_test Compact.ISO_PREFIX s = false ->
  Table.formatCellValue (VStr (Table.clip s)) = Table.clip s.
Proof.
  intros Hiso. cbn [Table.formatCellValue Table.isISOTimestamp js_String].
  destruct (Nat.le_gt_cases (String.length s) 40) as [H|H].
  - rewrite (table_clip_short s H), Hiso. exact (table_clip_short s H).
  - destruct (table_clip_long s H) as [Hclip Hlen].
    assert (Hiso' : Js.regex_test Compact.ISO_PREFIX (Table.clip s) = false).
    { rewrite Hclip, regex_test_slice0; [assumption | simpl; lia | lia]. }
    rewrite Hiso'. apply table_clip_short. lia.
Qed.

Lemma table_cell_string_fixed (s : string) :
  Table.formatCellValue (VStr (Table.formatCellValue (VStr s))) =
  Table.formatCellValue (VStr s).
Proof.
  cbn [Table.formatCellValue Table.isISOTimestamp js_String].
  destruct (Js.regex_test Compact.ISO_PREFIX s) eqn:Hiso.
  - unfold Table.compressTimestamp.
    assert (Hlen : (String.length (Js.slice0 10 s) <= 10)%nat)
      by (rewrite slice0_length; lia).
    rewrite regex_test_short by (simpl; lia).
    apply table_clip_short. lia.
  - fold (Table.isISOTimestamp (VStr (Table.clip s))).
    change (Table.formatCellValue (VStr (Table.clip s)) = Table.clip s).
    now apply table_clip_fixed.
Qed.

Lemma compact_string_fixed (s : string) :
  Js.includes " " (Compact.formatValue (VStr s)) = false ->
  Compact.formatValue (VStr (Compact.formatValue (VStr s))) =
  Compact.formatValue (VStr s).
Proof.
  rewrite (formatValue_string s).
  destruct (Js.includes " " (compact_cut s)) eqn:Hsp.
  - intros H. exfalso.
    change (String Js.DQ (compact_cut s) ++ String Js.DQ EmptyString)
      with (String Js.DQ (compact_cut s ++ String Js.DQ EmptyString)) in H.
    rewrite includes_cons in H; [discriminate|].
    now apply includes_app_l.
  - intros _. rewrite formatValue_string, compact_cut_idem, Hsp.
    reflexivity.
Qed.

End Idempotence.

(** C5 as stated fails: on a string with a space the compact normalizer is
    not idempotent, the second pass adds a second pair of quotes. *)
Lemma compact_quotes_twice :
  Compact.formatValue (VStr (Compact.formatValue (VStr "Pro Plan"))) <>
  Compact.formatValue (VStr "Pro Plan").
Proof. vm_compute. discriminate. Qed.

(** C5, amended.  On every scalar the table-cell normalizer is idempotent,
    and so is the compact normalizer when the rendering contains no
    space. *)
Theorem normalization_idempotent (v : value) :
  scalar v ->
  Table.formatCellValue (VStr (Table.formatCellValue v)) =
  Table.formatCellValue v /\
  (Js.includes " " (Compact.formatValue v) = false ->
   Compact.formatValue (VStr (Compact.formatValue v)) =
   Compact.formatValue v).
Proof.
  intros Hv. destruct Hv as [| |b|n Hn|s].
  - split; reflexivity.
  - split; reflexivity.
  - destruct b; split; reflexivity.
  - pose proof (num_chars n) as Hchars.
    pose proof (safe_integer_length n Hn) as Hlen. split.
    + change (Table.formatCellValue (VNum n))
        with (Table.clip (Js.num_to_string n)).
      apply table_clip_fixed, iso_not_num, Hchars.
    + intros _. change (Compact.formatValue (VNum n))
        with (Js.num_to_string n).
      rewrite formatValue_string, compact_cut_short by lia.
      now rewrite (num_no_space _ Hchars).
  - split; [apply table_cell_string_fixed | apply compact_string_fixed].
Qed.

(** The theorem on a string of 100 letters and on the greatest safe
    integer. *)
Lemma normalization_idempotent_witness :
  Compact.formatValue (VStr (Compact.formatValue (VStr (Js.repeat "A" 100)))) =
  Compact.formatValue (VStr (Js.repeat "A" 100)) /\
  Table.formatCellValue (VStr (Table.formatCellValue (VNum 9007199254740991))) =
  "9007199254740991".
Proof.
  split.
  - apply (normalization_idempotent (VStr (Js.repeat "A" 100))).
    + constructor.
    + reflexivity.
  - destruct (normalization_idempotent (VNum 9007199254740991)) as [H _].
    + constructor. unfold safe_integer. split; reflexivity.
    + rewrite H. reflexivity.
Defined.

(* ------------------------------------------------------------------ *)
(** ** The dispatcher and the machine-exact formats *)

(** C2 as stated fails for [formatItem]: without fields and detail it
    still renders the projection on the default fields for csv, tsv and
    jsonl, and the phone of the customer is not in the output. *)
Lemma formatItem_csv_renders_projection :
  let data :=
    [("id", VStr "c1"); ("email", VStr "a@b.c"); ("phone", VStr "555")] in
  let options format := Output.mkOptions format None false false false in
  Output.formatItem "customer" data (options "csv") <>
    Csv.formatCSV [data] None /\
  Output.formatItem "customer" data (options "csv") =
    "id,email" ++ Js.LF ++ "c1,a@b.c" /\
  Output.formatItem "customer" data (options "tsv") <> Csv.formatTSV [data] /\
  Output.formatItem "customer" data (options "jsonl") <>
    Json.formatJSONL [VObj data].
Proof.
  intros data options. repeat split; try (vm_compute; discriminate).
Qed.

(** C2, amended.  [formatList] hands the raw items to the json, jsonl, csv
    and tsv renderers when no fields were supplied, and the items projected
    on the fields when they were; [formatItem] hands the raw item to the
    json renderer when neither fields nor detail was supplied, and the
    projected item otherwise.  The table and compact renderers always get
    the projection. *)
Theorem machine_formats_projection
    (resourceType : string) (items : list object) (data : object)
    (p : Compact.PaginationMeta) (fs : list string)
    (fields : option (list string)) (detail quiet noColor : bool) :
  let raw format := Output.mkOptions format None detail quiet noColor in
  let picked format := Output.mkOptions format (Some fs) detail quiet noColor in
  let any format := Output.mkOptions format fields detail quiet noColor in
  let project sel := map (fun item => Fields.selectFields item sel) items in
  let selector :=
    Fields.Explicit
      match fields with
      | Some l => l
      | None => Fields.getDefaultFields resourceType
      end in
  let item_selector := if detail then Fields.All else selector in
  (Output.formatList resourceType items p (raw "json") =
     Json.formatJSONList (map VObj items) p /\
   Output.formatList resourceType items p (raw "jsonl") =
     Json.formatJSONL (map VObj items) /\
   Output.formatList resourceType items p (raw "csv") =
     Csv.formatCSV items None /\
   Output.formatList resourceType items p (raw "tsv") =
     Csv.formatTSV items) /\
  (Output.formatList resourceType items p (picked "json") =
     Json.formatJSONList (map VObj (project (Fields.Explicit fs))) p /\
   Output.formatList resourceType items p (picked "jsonl") =
     Json.formatJSONL (map VObj (project (Fields.Explicit fs))) /\
   Output.formatList resourceType items p (picked "csv") =
     Csv.formatCSV (project (Fields.Explicit fs)) None /\
   Output.formatList resourceType items p (picked "tsv") =
     Csv.formatTSV (project (Fields.Explicit fs))) /\
  (Output.formatItem resourceType data
     (Output.mkOptions "json" None false quiet noColor) =
     Json.formatJSON (VObj data) /\
   Output.formatItem resourceType data
     (Output.mkOptions "json" (Some fs) false quiet noColor) =
     Json.formatJSON (VObj (Fields.selectFields data (Fields.Explicit fs))) /\
   Output.formatItem resourceType data
     (Output.mkOptions "json" fields true quiet noColor) =
     Json.formatJSON (VObj (Fields.selectFields data Fields.All))) /\
  (Output.formatList resourceType items p (any "table") =
     Table.formatTable (project selector) noColor /\
   Output.formatList resourceType items p (any "compact") =
     Compact.formatCompactList resourceType (project selector) p fields /\
   Output.formatItem resourceType data (any "table") =
     Table.formatTableItem resourceType
       (Fields.selectFields data item_selector) noColor /\
   Output.formatItem resourceType data (any "compact") =
     Compact.formatCompactItem resourceType
       (Fields.selectFields data item_selector) None).
Proof.
  intros raw picked any project selector item_selector.
  unfold item_selector, selector, any, project.
  destruct fields as [l|], detail; repeat split.
Qed.

(* ------------------------------------------------------------------ *)
(** ** Explicit fields in the compact list *)

(** C3.  [formatList] projects every item on the explicit fields and then
    hands the same fields to [formatCompactList], which keeps only the
    flattened entries whose dotted key is one of them.  For a subscription
    asked for id and customer the line holds the id alone, although the
    flattening of the projected item has the leaves customer.id and
    customer.email, which [formatItem] prints for the same item and
    fields. *)
Theorem compact_list_drops_nested_leaves :
  let item :=
    [("id", VStr "sub_1");
     ("customer", VObj [("id", VStr "c1"); ("email", VStr "a@b.c")])] in
  let fs := ["id"; "customer"] in
  let options := Output.mkOptions "compact" (Some fs) false false false in
  let projected := Fields.selectFields item (Fields.Explicit fs) in
  Output.formatList "subscriptions" [item] (Compact.mkPagination 1 10 1)
    options =
  "subscriptions 1-1/1 page=1" ++ Js.LF ++ "  [1] id=sub_1" /\
  "  [1] " ++
  Js.join " "
    (map Compact.pair_text (Compact.flattenObject projected EmptyString)) =
  "  [1] id=sub_1 customer.id=c1 customer.email=a@b.c" /\
  Output.formatItem "subscription" item options =
  "subscription id=sub_1 customer.id=c1 customer.email=a@b.c".
Proof. repeat split. Qed.

(* ================================================================== *)
(** * Further properties of the renderers *)

(* ------------------------------------------------------------------ *)
(** ** Induction on nested values *)

Lemma value_nested_ind (P : value -> Prop) :
  P VUndefined -> P VNull ->
  (forall b, P (VBool b)) -> (forall n, P (VNum n)) ->
  (forall s, P (VStr s)) ->
  (forall l, Forall P l -> P (VArr l)) ->
  (forall o, Forall (fun kv => P (snd kv)) o -> P (VObj o)) ->
  (forall iso text, P (VDate iso text)) ->
  forall v, P v.
Proof.
  intros Hu Hn Hb Hz Hs Ha Ho Hd.
  fix IH 1.
  intros [ | | b | n | s | l | o | iso text];
    [exact Hu | exact Hn | apply Hb | apply Hz | apply Hs | | | apply Hd].
  - apply Ha. revert l. fix IHl 1.
    intros [|x l]; constructor; [apply IH | apply IHl].
  - apply Ho. revert o. fix IHo 1.
    intros [|[k x] o]; constructor; [apply IH | apply IHo].
Qed.

(* ------------------------------------------------------------------ *)
(** ** The flattener *)

Section Flattener.

Import Compact.

Lemma flattenEntry_leaves (v : value) :
  forall prefix key,
    Forall (fun e => is_leaf (snd e) = true) (flattenEntry prefix key v).
Proof.
  induction v as [ | | b | n | s | l IHl | o IHo | iso text]
    using value_nested_ind; intros prefix key; cbn [flattenEntry];
    try (repeat constructor; fail).
  - destruct s as [|c s]; [constructor|].
    cbn [isISOTimestamp].
    destruct (Js.regex_test ISO_PREFIX (String c s)); repeat constructor.
  - induction IHo as [|[k x] o Hx _ IH]; cbn [flat_map]; [constructor|].
    apply Forall_app. split; [apply Hx | exact IH].
Qed.

Lemma fullKey_extends (prefix key : string) :
  prefix <> EmptyString -> fullKey prefix key = prefix ++ "." ++ key.
Proof. destruct prefix; [congruence | reflexivity]. Qed.

Lemma prefix_refl_app (a b : string) : String.prefix a (a ++ b) = true.
Proof. apply prefix_split. now exists b. Qed.

Lemma prefix_trans (a b c : string) :
  String.prefix a b = true -> String.prefix b c = true ->
  String.prefix a c = true.
Proof.
  rewrite !prefix_split. intros [x ->] [y ->].
  exists (x ++ y). now rewrite app_assoc_str.
Qed.

(** The keys an entry contributes are its full key or extend it by a dot. *)
Lemma flattenEntry_keys (v : value) :
  forall prefix key,
    fullKey prefix key <> EmptyString ->
    Forall (fun e => fst e = fullKey prefix key \/
                     String.prefix (fullKey prefix key ++ ".") (fst e) = true)
           (flattenEntry prefix key v).
Proof.
  induction v as [ | | b | n | s | l IHl | o IHo | iso text]
    using value_nested_ind; intros prefix key Hne; cbn [flattenEntry];
    try (repeat constructor; now left).
  - destruct s as [|c s]; [constructor|].
    destruct (isISOTimestamp (VStr (String c s)));
      repeat constructor; now left.
  - induction IHo as [|[k x] o Hx _ IH]; cbn [flat_map]; [constructor|].
    apply Forall_app. split; [|exact IH].
    cbn [fst snd].
    assert (Hk : fullKey (fullKey prefix key) k =
                 (fullKey prefix key ++ ".") ++ k).
    { rewrite fullKey_extends by assumption. now rewrite app_assoc_str. }
    assert (Hne' : fullKey (fullKey prefix key) k <> EmptyString).
    { rewrite Hk. destruct (fullKey prefix key); [congruence | discriminate]. }
    specialize (Hx (fullKey prefix key) k Hne').
    eapply Forall_impl; [|exact Hx].
    intros e [He|He]; right.
    + rewrite He, Hk. apply prefix_refl_app.
    + eapply prefix_trans; [|exact He].
      rewrite Hk, app_assoc_str. apply prefix_refl_app.
Qed.

End Flattener.

(** X1.  Every entry the flattener emits holds a boolean, a number or a
    string that is not empty: [null], [undefined], empty strings, arrays,
    objects and dates never reach the normalizer. *)
Theorem flattenObject_emits_leaves
    (obj : object) (prefix key : string) (v : value) :
  In (key, v) (Compact.flattenObject obj prefix) -> is_leaf v = true.
Proof.
  unfold Compact.flattenObject. intros H. apply in_flat_map in H.
  destruct H as [[k x] [_ H]].
  pose proof (flattenEntry_leaves x prefix k) as Hall.
  rewrite Forall_forall in Hall. exact (Hall _ H).
Qed.

(** The theorem on a customer with a null name, a nested address and two
    tags. *)
Lemma flattenObject_emits_leaves_witness :
  is_leaf (VNum 2) = true.
Proof.
  apply (flattenObject_emits_leaves
           [("name", VNull);
            ("address", VObj [("city", VStr "Oslo"); ("zip", VStr EmptyString)]);
            ("tags", VArr [VStr "a"; VStr "b"])]
           EmptyString "tags" (VNum 2)).
  simpl. right. left. reflexivity.
Defined.

(** X2.  Every entry of the flattening of an item comes from one property
    of the item, and unless the name of that property is empty the key of
    the entry is that name or starts with that name followed by a dot. *)
Theorem flattenObject_keys_under_parent
    (obj : object) (key : string) (v : value) :
  In (key, v) (Compact.flattenObject obj EmptyString) ->
  exists k x,
    In (k, x) obj /\
    In (key, v) (Compact.flattenEntry EmptyString k x) /\
    (k <> EmptyString ->
     key = k \/ String.prefix (k ++ ".") key = true).
Proof.
  unfold Compact.flattenObject. intros H. apply in_flat_map in H.
  destruct H as [[k x] [Hin H]]. exists k, x. cbn [fst snd] in H.
  split; [exact Hin|]. split; [exact H|]. intros Hk.
  destruct k as [|c k]; [congruence|].
  pose proof (flattenEntry_keys x EmptyString (String c k)
                ltac:(discriminate)) as Hall.
  rewrite Forall_forall in Hall. exact (Hall _ H).
Qed.

(** The theorem on the email of the customer of a subscription. *)
Lemma flattenObject_keys_under_parent_witness :
  exists k x,
    In (k, x)
       [("id", VStr "sub_1");
        ("customer", VObj [("id", VStr "c1"); ("email", VStr "a@b.c")])] /\
    In ("customer.email", VStr "a@b.c")
       (Compact.flattenEntry EmptyString k x) /\
    (k <> EmptyString ->
     "customer.email" = k \/
     String.prefix (k ++ ".") "customer.email" = true).
Proof.
  apply (flattenObject_keys_under_parent _ "customer.email" (VStr "a@b.c")).
  simpl. right. right. left. reflexivity.
Defined.

(* ------------------------------------------------------------------ *)
(** ** Bounds and timestamps *)

Section Bounds.

Lemma compact_cut_bound (s : string) : (String.length (compact_cut s) <= 83)%nat.
Proof.
  destruct (Nat.le_gt_cases (String.length s) 80) as [H|H].
  - rewrite (compact_cut_short s H). lia.
  - destruct (compact_cut_long s H) as [_ Hlen]. lia.
Qed.

Lemma table_clip_bound (s : string) : (String.length (Table.clip s) <= 40)%nat.
Proof.
  destruct (Nat.le_gt_cases (String.length s) 40) as [H|H].
  - rewrite (table_clip_short s H). lia.
  - destruct (table_clip_long s H) as [_ Hlen]. lia.
Qed.

Lemma regex_test_app_l (re1 re2 : list Js.atom) (s : string) :
  Js.regex_test (re1 ++ re2)%list s = true -> Js.regex_test re1 s = true.
Proof.
  revert s. induction re1 as [|a re1 IH]; intros s H; [reflexivity|].
  destruct s as [|c s]; [discriminate H|].
  cbn [Js.regex_test app] in *. apply andb_true_iff in H.
  destruct H as [Ha H]. now rewrite Ha, (IH s H).
Qed.

(** The text an anchored regular expression matched. *)
Lemma regex_test_matched (re : list Js.atom) (s : string) :
  Js.regex_test re s = true ->
  Js.regex_test re (Js.slice0 (List.length re) s) = true /\
  String.length (Js.slice0 (List.length re) s) = List.length re.
Proof.
  unfold Js.slice0. revert s.
  induction re as [|a re IH]; intros s H.
  - now destruct s.
  - destruct s as [|c s]; [discriminate H|].
    cbn [Js.regex_test] in H. apply andb_true_iff in H.
    destruct H as [Ha H]. destruct (IH s H) as [IH1 IH2].
    cbn [List.length substring Js.regex_test String.length].
    now rewrite Ha, IH1, IH2.
Qed.

Lemma regex_test_num_chars (re : list Js.atom) (s : string) :
  Forall (fun a => a = Js.Digit \/ a = Js.Lit "-") re ->
  Js.regex_test re s = true ->
  all_chars is_num_char (Js.slice0 (List.length re) s) = true.
Proof.
  unfold Js.slice0. intros Hre. revert s.
  induction Hre as [|a re Ha _ IH]; intros s H.
  - now destruct s.
  - destruct s as [|c s]; [discriminate H|].
    cbn [Js.regex_test] in H. apply andb_true_iff in H.
    destruct H as [Hc H].
    cbn [List.length substring all_chars]. rewrite (IH s H), andb_true_r.
    unfold is_num_char. destruct Ha as [-> | ->]; cbn in Hc; rewrite Hc;
      [reflexivity | apply orb_true_r].
Qed.

Lemma flattenEntry_iso (prefix key s : string) :
  Compact.isISOTimestamp (VStr s) = true ->
  Compact.flattenEntry prefix key (VStr s) =
  [(Compact.fullKey prefix key, VStr (Compact.compressTimestamp s))].
Proof.
  intros H. destruct s as [|c s]; [discriminate H|].
  cbn [Compact.flattenEntry]. now rewrite H.
Qed.

End Bounds.

(** X3.  A string is rendered by the compact normalizer in at most 85
    characters (80 kept, three dots and two quotes), and a string, a number
    or a boolean by the table-cell normalizer in at most 40. *)
Theorem rendered_lengths_bounded :
  (forall s, (String.length (Compact.formatValue (VStr s)) <= 85)%nat) /\
  (forall s, (String.length (Table.formatCellValue (VStr s)) <= 40)%nat) /\
  (forall n, (String.length (Table.formatCellValue (VNum n)) <= 40)%nat) /\
  (forall b, (String.length (Table.formatCellValue (VBool b)) <= 40)%nat).
Proof.
  repeat split.
  - intros s. rewrite formatValue_string.
    pose proof (compact_cut_bound s) as Hcut.
    destruct (Js.includes " " (compact_cut s)); [|lia].
    cbn [String.length append]. rewrite str_length_app.
    change (String.length (String Js.DQ EmptyString)) with 1%nat. lia.
  - intros s. cbn [Table.formatCellValue Table.isISOTimestamp js_String].
    destruct (Js.regex_test Compact.ISO_PREFIX s).
    + unfold Table.compressTimestamp. rewrite slice0_length. lia.
    + apply table_clip_bound.
  - intros n. apply table_clip_bound.
  - intros b. apply table_clip_bound.
Qed.

(** X4.  A string that starts with an ISO date-time is rendered as its
    first ten characters, a date of the form dddd-dd-dd, by the compact
    renderer (without quotes), by the table cell and by the CSV cell
    alike. *)
Theorem timestamp_compression_consistent (key s : string) :
  Compact.isISOTimestamp (VStr s) = true ->
  let date := Js.slice0 10 s in
  String.length date = 10%nat /\
  Js.regex_test
    [Js.Digit; Js.Digit; Js.Digit; Js.Digit; Js.Lit "-";
     Js.Digit; Js.Digit; Js.Lit "-"; Js.Digit; Js.Digit]%char date = true /\
  map Compact.pair_text (Compact.flattenObject [(key, VStr s)] EmptyString) =
    [key ++ "=" ++ date] /\
  Table.formatCellValue (VStr s) = date /\
  Csv.formatCellValue (VStr s) = date.
Proof.
  intros Hiso date.
  pose proof (flattenEntry_iso EmptyString key s Hiso) as Hflat.
  cbn [Compact.isISOTimestamp] in Hiso.
  assert (Hdate : Js.regex_test (firstn 10 Compact.ISO_PREFIX) s = true).
  { apply regex_test_app_l with (re2 := skipn 10 Compact.ISO_PREFIX).
    exact Hiso. }
  destruct (regex_test_matched _ _ Hdate) as [Hmatch Hlen].
  change (String.length date = 10%nat) in Hlen.
  assert (Hnum : all_chars is_num_char date = true).
  { apply (regex_test_num_chars (firstn 10 Compact.ISO_PREFIX)); [|exact Hdate].
    cbn.
    repeat (apply Forall_cons;
            [first [left; reflexivity | right; reflexivity]|]).
    apply Forall_nil. }
  split; [exact Hlen|]. split; [exact Hmatch|]. split; [|split].
  - unfold Compact.flattenObject. cbn [flat_map fst snd].
    rewrite Hflat. unfold Compact.compressTimestamp. fold date.
    cbv [List.app map Compact.fullKey Compact.pair_text fst snd].
    rewrite formatValue_string, compact_cut_short by lia.
    now rewrite (num_no_space _ Hnum).
  - cbn [Table.formatCellValue Table.isISOTimestamp]. now rewrite Hiso.
  - cbn [Csv.formatCellValue Csv.isISOTimestamp]. now rewrite Hiso.
Qed.

(** The theorem on the creation time of the tests. *)
Lemma timestamp_compression_consistent_witness :
  map Compact.pair_text
    (Compact.flattenObject [("createdAt", VStr "2024-01-15T10:30:00.000Z")]
       EmptyString) = ["createdAt=2024-01-15"] /\
  Csv.formatCellValue (VStr "2024-01-15T10:30:00.000Z") = "2024-01-15".
Proof.
  destruct (timestamp_compression_consistent "createdAt"
              "2024-01-15T10:30:00.000Z" eq_refl)
    as [_ [_ [Hcompact [_ Hcsv]]]].
  split; [exact Hcompact | exact Hcsv].
Defined.

(* ------------------------------------------------------------------ *)
(** ** More on the field projector *)

Section ProjectorMore.

Lemma lookup_In (k : string) (v : value) (o : object) :
  Obj.lookup k o = Some v -> In (k, v) o.
Proof.
  induction o as [|[k0 v0] o IH]; simpl; [discriminate|].
  destruct (String.eqb_spec k k0) as [-> | Hk].
  - intros H. inversion H. now left.
  - intros H. right. now apply IH.
Qed.

Lemma In_lookup (k : string) (v : value) (o : object) :
  NoDup (Obj.keys o) -> In (k, v) o -> Obj.lookup k o = Some v.
Proof.
  induction o as [|[k0 v0] o IH]; simpl; [tauto|].
  intros Hnd [H|H].
  - inversion H; subst. now rewrite String.eqb_refl.
  - inversion Hnd as [|? ? Hk0 Hnd']; subst.
    destruct (String.eqb_spec k k0) as [-> | Hk]; [|now apply IH].
    exfalso. apply Hk0. change k0 with (fst (k0, v)).
    now apply in_map.
Qed.


Lemma explicit_keys_in (data : object) (fs : list string) (k : string) :
  In k (Obj.keys (Fields.explicit_loop fs data [])) <->
  In k fs /\ Obj.has k data = true.
Proof.
  rewrite explicit_loop_keys, fold_add_once_In, filter_In. simpl. tauto.
Qed.

Lemma explicit_keys_NoDup (data : object) (fs : list string) :
  NoDup (Obj.keys (Fields.explicit_loop fs data [])).
Proof. rewrite explicit_loop_keys. apply fold_add_once_NoDup. constructor. Qed.

Lemma fold_add_once_hd (l acc : list string) (x : string) :
  hd_error (fold_left add_once l (x :: acc)) = Some x.
Proof.
  revert acc. induction l as [|y l IH]; intros acc; [reflexivity|].
  cbn [fold_left]. unfold add_once at 2.
  destruct (Js.arr_includes y (x :: acc)); [apply IH|].
  change ((x :: acc) ++ [y])%list with (x :: (acc ++ [y]))%list. apply IH.
Qed.

Lemma assoc_hd (r : string) (table : list (string * list string))
    (fs : list string) :
  Forall (fun e => hd_error (snd e) = Some "id") table ->
  Fields.assoc r table = Some fs -> hd_error fs = Some "id".
Proof.
  induction 1 as [|[k l] table Hl _ IH]; simpl; [discriminate|].
  destruct (String.eqb r k); [|exact IH].
  intros H. inversion H; subst. exact Hl.
Qed.

Lemma filter_all {A : Type} (f : A -> bool) (l : list A) :
  (forall x, In x l -> f x = true) -> filter f l = l.
Proof.
  induction l as [|x l IH]; intros H; [reflexivity|].
  cbn [filter]. rewrite (H x (or_introl eq_refl)). f_equal.
  apply IH. intros y Hy. apply H. now right.
Qed.

(** A value that is no object contributes entries under its own key
    only. *)
Lemma flattenEntry_flat (prefix key : string) (v : value) :
  is_object v = false ->
  Forall (fun e => fst e = Compact.fullKey prefix key)
         (Compact.flattenEntry prefix key v).
Proof.
  destruct v as [ | | b | n | s | l | o | iso text]; intros H;
    cbn [Compact.flattenEntry]; try discriminate H;
    try (repeat constructor; fail).
  destruct s as [|c s]; [constructor|].
  destruct (Compact.isISOTimestamp (VStr (String c s))); repeat constructor.
Qed.

Lemma item_lines_ext (fs : list string) (items : list object) (i : nat) :
  (forall item, In item items ->
     Compact.filterFields (Compact.flattenObject item EmptyString) (Some fs) =
     Compact.flattenObject item EmptyString) ->
  Compact.item_lines (Some fs) i items = Compact.item_lines None i items.
Proof.
  revert i. induction items as [|item items IH]; intros i H; [reflexivity|].
  cbn [Compact.item_lines]. rewrite IH by (intros x Hx; apply H; now right).
  f_equal. unfold Compact.item_line, Compact.item_pairs.
  rewrite (H item (or_introl eq_refl)). reflexivity.
Qed.

End ProjectorMore.


(** X6.  The default field list of every resource name that is no
    inherited name, registered or not, starts with [id], so the default
    projection of an item that has an id starts with it. *)
Theorem default_fields_start_with_id (resource : string) (data : object) :
  Js.arr_includes resource inherited_names = false ->
  hd_error (Fields.getDefaultFields resource) = Some "id" /\
  (Obj.has "id" data = true ->
   hd_error
     (Fields.selectFields data
        (Fields.Explicit (Fields.getDefaultFields resource))) =
   Some ("id", Obj.get "id" data)).
Proof.
  intros _.
  assert (Hhd : hd_error (Fields.getDefaultFields resource) = Some "id").
  { unfold Fields.getDefaultFields.
    destruct (Fields.assoc resource Fields.RESOURCE_DEFAULT_FIELDS)
      as [fs|] eqn:E; [|reflexivity].
    apply (assoc_hd resource Fields.RESOURCE_DEFAULT_FIELDS fs); [|exact E].
    repeat constructor. }
  split; [exact Hhd|]. intros Hid. cbn [Fields.selectFields].
  destruct (Fields.getDefaultFields resource) as [|f fs]; [discriminate Hhd|].
  inversion Hhd; subst f.
  set (r := Fields.explicit_loop ("id" :: fs) data []).
  assert (Hkeys : hd_error (Obj.keys r) = Some "id").
  { unfold r. rewrite explicit_loop_keys. cbn [filter]. rewrite Hid.
    cbn [fold_left Obj.keys map]. apply fold_add_once_hd. }
  assert (Hval : Obj.lookup "id" r = Obj.lookup "id" data).
  { destruct (Obj.lookup "id" r) as [v|] eqn:Hr.
    - symmetry.
      apply (explicit_loop_values ("id" :: fs) data [] ltac:(discriminate)
               "id" v Hr).
    - exfalso. destruct r as [|[k v] r']; [discriminate Hkeys|].
      cbn in Hkeys. inversion Hkeys; subst k.
      cbn in Hr. discriminate Hr. }
  destruct r as [|[k v] r']; [discriminate Hkeys|].
  cbn in Hkeys. inversion Hkeys; subst k. cbn in Hval.
  unfold Obj.get. rewrite <- Hval. reflexivity.
Qed.

(** The theorem on a customer, whose default fields are id, email, name,
    type and the creation time. *)
Lemma default_fields_start_with_id_witness :
  hd_error
    (Fields.selectFields [("email", VStr "a@b.c"); ("id", VStr "c1")]
       (Fields.Explicit (Fields.getDefaultFields "customer"))) =
  Some ("id", VStr "c1").
Proof.
  apply (default_fields_start_with_id "customer"
           [("email", VStr "a@b.c"); ("id", VStr "c1")]).
  - reflexivity.
  - reflexivity.
Defined.

(** X7.  For items without nested objects the compact list with explicit
    fields is the compact list of the projected items: the second filter
    of the list renderer removes nothing. *)
Theorem compact_list_explicit_fields_flat
    (resourceType : string) (items : list object) (p : Compact.PaginationMeta)
    (fs : list string) (detail quiet noColor : bool) :
  (forall item k v, In item items -> In (k, v) item -> is_object v = false) ->
  Output.formatList resourceType items p
    (Output.mkOptions "compact" (Some fs) detail quiet noColor) =
  Compact.formatCompactList resourceType
    (map (fun item => Fields.selectFields item (Fields.Explicit fs)) items)
    p None.
Proof.
  intros Hflat.
  change (Output.formatList resourceType items p
            (Output.mkOptions "compact" (Some fs) detail quiet noColor))
    with (Compact.formatCompactList resourceType
            (map (fun item => Fields.selectFields item (Fields.Explicit fs))
                 items) p (Some fs)).
  unfold Compact.formatCompactList, Compact.list_lines.
  rewrite item_lines_ext; [reflexivity|].
  intros r Hr. apply in_map_iff in Hr. destruct Hr as [item [<- Hitem]].
  cbn [Compact.filterFields Fields.selectFields]. apply filter_all.
  intros [k' v'] He. unfold Compact.flattenObject in He.
  apply in_flat_map in He. destruct He as [[k v] [Hkv He]].
  cbn [fst snd] in *.
  assert (Hk : In k fs).
  { assert (Hin : In k (Obj.keys (Fields.explicit_loop fs item []))).
    { change k with (fst (k, v)). now apply in_map. }
    apply explicit_keys_in in Hin. tauto. }
  assert (Hv : is_object v = false).
  { apply (Hflat item k v Hitem). apply lookup_In.
    apply (explicit_loop_values fs item [] ltac:(discriminate)).
    apply In_lookup; [apply explicit_keys_NoDup | exact Hkv]. }
  pose proof (flattenEntry_flat EmptyString k v Hv) as Hall.
  rewrite Forall_forall in Hall. specialize (Hall _ He).
  cbn [fst Compact.fullKey] in Hall. subst k'.
  now apply arr_includes_In.
Qed.

(** The theorem on the product list of the field-selection test. *)
Lemma compact_list_explicit_fields_flat_witness :
  Output.formatList "products"
    [[("id", VStr "prod_123"); ("name", VStr "Pro");
      ("description", VStr "plan"); ("isRecurring", VBool true)]]
    (Compact.mkPagination 1 10 1)
    (Output.mkOptions "compact" (Some ["id"; "name"]) false false false) =
  "products 1-1/1 page=1" ++ Js.LF ++ "  [1] id=prod_123 name=Pro".
Proof.
  rewrite compact_list_explicit_fields_flat; [reflexivity|].
  intros item k v [<- | []] Hin. simpl in Hin.
  repeat (destruct Hin as [Hin|Hin]; [inversion Hin; reflexivity|]).
  destruct Hin.
Defined.

(* ------------------------------------------------------------------ *)
(** ** More on CSV cells and on the columns *)

Section CsvMore.

Lemma double_quotes_inj (a : string) :
  forall b, Js.double_quotes a = Js.double_quotes b -> a = b.
Proof.
  induction a as [|c a IH]; intros [|d b] H; cbn [Js.double_quotes] in H.
  - reflexivity.
  - destruct (Ascii.eqb d Js.DQ); discriminate H.
  - destruct (Ascii.eqb c Js.DQ); discriminate H.
  - destruct (Ascii.eqb_spec c Js.DQ) as [Hc|Hc];
      destruct (Ascii.eqb_spec d Js.DQ) as [Hd|Hd].
    + inversion H as [H']. rewrite (IH b H'). congruence.
    + inversion H. congruence.
    + inversion H. congruence.
    + inversion H as [[Hcd H']]. now rewrite (IH b H').
Qed.

Lemma app_inv_tail_str (x y z : string) : x ++ z = y ++ z -> x = y.
Proof.
  revert y. induction x as [|c x IH]; intros [|d y] H.
  - reflexivity.
  - exfalso. apply (f_equal String.length) in H.
    cbn [append String.length] in H. rewrite str_length_app in H. lia.
  - exfalso. apply (f_equal String.length) in H.
    cbn [append String.length] in H. rewrite str_length_app in H. lia.
  - cbn [append] in H. inversion H. f_equal. now apply IH.
Qed.

Lemma quoted_needs_quoting (x delimiter : string) :
  Csv.needs_quoting (String Js.DQ x) delimiter = true.
Proof.
  unfold Csv.needs_quoting.
  rewrite (includes_String (String Js.DQ EmptyString)), prefix_char.
  rewrite Ascii.eqb_refl. cbn [orb]. apply orb_true_r.
Qed.

Lemma gather_columns_concat (items : list object) (acc : list string) :
  fold_left
    (fun columns item =>
       fold_left
         (fun columns key =>
            if Js.arr_includes key columns then columns
            else (columns ++ [key])%list)
         (Obj.keys item) columns)
    items acc =
  fold_left add_once (flat_map Obj.keys items) acc.
Proof.
  revert acc. induction items as [|item items IH]; intros acc; [reflexivity|].
  cbn [fold_left flat_map]. rewrite fold_left_app, IH. reflexivity.
Qed.

End CsvMore.

(** X8.  For a given delimiter no two cells have the same escaped text. *)
Theorem escapeCell_injective (a b delimiter : string) :
  Csv.escapeCell a delimiter = Csv.escapeCell b delimiter -> a = b.
Proof.
  unfold Csv.escapeCell.
  destruct (Csv.needs_quoting a delimiter) eqn:Ha;
    destruct (Csv.needs_quoting b delimiter) eqn:Hb; intros H.
  - cbn [append] in H. inversion H as [H'].
    apply app_inv_tail_str in H'. now apply double_quotes_inj.
  - cbn [append] in H. rewrite <- H, quoted_needs_quoting in Hb.
    discriminate Hb.
  - cbn [append] in H. rewrite H, quoted_needs_quoting in Ha.
    discriminate Ha.
  - exact H.
Qed.

(** The contrapositive on a cell with a comma and its quoted spelling. *)
Lemma escapeCell_injective_witness :
  Csv.escapeCell "a,b" "," <>
  Csv.escapeCell (String Js.DQ "a,b" ++ String Js.DQ EmptyString) ",".
Proof.
  intros H. apply escapeCell_injective in H. discriminate H.
Defined.

(** X9.  The columns of the table and CSV renderers are the keys of the
    items, each once and in the order of first appearance: a name is a
    column exactly when some item has it as a key, and the columns of a
    single item are its keys. *)
Theorem gather_columns_union (items : list object) :
  gather_columns items = first_occurrences (flat_map Obj.keys items) /\
  NoDup (gather_columns items) /\
  (forall k, In k (gather_columns items) <->
             exists item, In item items /\ In k (Obj.keys item)) /\
  (forall item, NoDup (Obj.keys item) ->
                gather_columns [item] = Obj.keys item).
Proof.
  assert (H : forall l, gather_columns l =
                        first_occurrences (flat_map Obj.keys l)).
  { intros l. apply gather_columns_concat. }
  repeat split.
  - apply H.
  - rewrite H. apply fold_add_once_NoDup. constructor.
  - rewrite H. unfold first_occurrences. rewrite fold_add_once_In.
    intros [[]|Hin]. apply in_flat_map in Hin. exact Hin.
  - intros Hex. rewrite H. unfold first_occurrences.
    apply fold_add_once_In. right. now apply in_flat_map.
  - intros item Hnd. rewrite H. unfold first_occurrences.
    cbn [flat_map]. rewrite app_nil_r.
    now apply (fold_add_once_fresh (Obj.keys item) []).
Qed.

(** The theorem on two items that share the id. *)
Lemma gather_columns_union_witness :
  gather_columns [[("id", VStr "a"); ("name", VStr "n")]] = ["id"; "name"] /\
  In "email"
     (gather_columns
        [[("id", VStr "a"); ("name", VStr "n")];
         [("id", VStr "b"); ("email", VStr "e")]]).
Proof.
  split.
  - destruct (gather_columns_union [[("id", VStr "a"); ("name", VStr "n")]])
      as [_ [_ [_ H]]].
    apply H. repeat constructor; simpl; intuition discriminate.
  - apply (gather_columns_union
             [[("id", VStr "a"); ("name", VStr "n")];
              [("id", VStr "b"); ("email", VStr "e")]]).
    exists [("id", VStr "b"); ("email", VStr "e")].
    simpl. tauto.
Defined.

(* ------------------------------------------------------------------ *)
(** ** The alignment of the table *)

Section TableAlignment.

Lemma repeat_length (s : string) (n : nat) :
  String.length (Js.repeat s n) = (n * String.length s)%nat.
Proof.
  induction n as [|n IH]; [reflexivity|].
  cbn [Js.repeat]. rewrite str_length_app, IH. lia.
Qed.

Lemma padEnd_length (s : string) (n : nat) :
  String.length (Js.padEnd s n) = Nat.max (String.length s) n.
Proof.
  unfold Js.padEnd. rewrite str_length_app, repeat_length.
  change (String.length " ") with 1%nat. lia.
Qed.

Lemma join_cons_cons (sep x y : string) (l : list string) :
  Js.join sep (x :: y :: l) = x ++ sep ++ Js.join sep (y :: l).
Proof. reflexivity. Qed.

End TableAlignment.

Section TableLines.

Variable items : list object.

Let columns := gather_columns items.

Let cell (item : object) (col : string) : string :=
  Table.formatCellValue (Obj.get col item).

Let width (col : string) : nat :=
  Nat.max (String.length col)
    (fold_left (fun mx item => Nat.max mx (String.length (cell item col)))
       items 0%nat).

Let rows : list (list string) :=
  map (fun item =>
         map (fun col => Table.formatCellValue (Obj.get col item)) columns)
      items.

Let code_width (i : nat) (col : string) : nat :=
  Nat.max (String.length col)
    (fold_left
       (fun mx row => Nat.max mx (String.length (nth i row EmptyString)))
       rows 0%nat).

Lemma fold_max_map {A B : Type} (f : B -> nat) (g : A -> nat) (h : A -> B)
    (l : list A) (init : nat) :
  (forall x, f (h x) = g x) ->
  fold_left (fun mx y => Nat.max mx (f y)) (map h l) init =
  fold_left (fun mx x => Nat.max mx (g x)) l init.
Proof.
  intros Hfg. revert init. induction l as [|x l IH]; intros init;
    [reflexivity|].
  cbn [map fold_left]. now rewrite Hfg, IH.
Qed.

Lemma fold_max_bound {A : Type} (g : A -> nat) (l : list A) (init : nat)
    (x : A) :
  In x l -> (g x <= fold_left (fun mx y => Nat.max mx (g y)) l init)%nat.
Proof.
  assert (Hmono : forall l init,
            (init <= fold_left (fun mx y => Nat.max mx (g y)) l init)%nat).
  { clear. induction l as [|y l IH]; intros init; cbn [fold_left]; [lia|].
    specialize (IH (Nat.max init (g y))). lia. }
  revert init. induction l as [|y l IH]; intros init; [intros []|].
  intros [-> | Hin]; cbn [fold_left].
  - specialize (Hmono l (Nat.max init (g x))). lia.
  - now apply IH.
Qed.

(** The width the code computes at the index of a column is the width of
    the column. *)
Lemma code_width_at (before after : list string) (c : string) :
  columns = (before ++ c :: after)%list ->
  code_width (List.length before) c = width c.
Proof.
  intros Hcols. unfold code_width, width. f_equal. unfold rows.
  apply fold_max_map. intros item. rewrite Hcols, map_app. cbn [map].
  rewrite <- (length_map
                (fun col => Table.formatCellValue (Obj.get col item)) before).
  now rewrite nth_middle.
Qed.

Lemma code_widths (suffix : list string) :
  forall before,
    columns = (before ++ suffix)%list ->
    mapi_from code_width (List.length before) suffix = map width suffix.
Proof.
  induction suffix as [|c suffix IH]; intros before Hcols; [reflexivity|].
  cbn [mapi_from map]. rewrite (code_width_at before suffix c Hcols).
  f_equal. specialize (IH (before ++ [c])%list).
  rewrite List.length_app in IH. cbn [List.length] in IH.
  replace (List.length before + 1)%nat with (S (List.length before)) in IH
    by lia.
  apply IH. now rewrite <- app_assoc.
Qed.

(** Padding by the index into the widths is padding by the width of the
    column. *)
Lemma padded_by_name (h : string -> string) (suffix : list string) :
  forall before,
    mapi_from
      (fun i x => Js.padEnd x (nth i (map width (before ++ suffix)%list) 0%nat))
      (List.length before) (map h suffix) =
    map (fun c => Js.padEnd (h c) (width c)) suffix.
Proof.
  induction suffix as [|c suffix IH]; intros before; [reflexivity|].
  cbn [mapi_from map]. f_equal.
  - rewrite map_app. cbn [map].
    rewrite <- (length_map width before). now rewrite nth_middle.
  - specialize (IH (before ++ [c])%list).
    rewrite List.length_app, <- app_assoc in IH.
    cbn [List.length List.app] in IH.
    replace (List.length before + 1)%nat with (S (List.length before)) in IH
      by lia.
    exact IH.
Qed.

Lemma padded_length (h : string -> string) (cols : list string) :
  (forall c, In c cols -> (String.length (h c) <= width c)%nat) ->
  String.length (Js.join "  " (map (fun c => Js.padEnd (h c) (width c)) cols)) =
  line_width (map width cols).
Proof.
  induction cols as [|c cols IH]; intros Hfit; [reflexivity|].
  pose proof (Hfit c (or_introl eq_refl)) as Hc.
  specialize (IH (fun x Hx => Hfit x (or_intror Hx))).
  destruct cols as [|c' cols].
  - cbn [map Js.join String.concat line_width]. rewrite padEnd_length. lia.
  - cbn [map] in *. rewrite join_cons_cons.
    rewrite !str_length_app, padEnd_length, IH.
    change (String.length "  ") with 2%nat. cbn [line_width]. lia.
Qed.

Lemma cell_fits (item : object) (c : string) :
  In item items -> (String.length (cell item c) <= width c)%nat.
Proof.
  intros Hitem. unfold width.
  pose proof (fold_max_bound (fun it => String.length (cell it c)) items 0%nat
                item Hitem) as H.
  cbn beta in H. lia.
Qed.

(** Without colours the table is the header, the separator and the rows,
    all built from the columns and their widths. *)
Lemma table_lines_explicit :
  items <> [] ->
  Table.formatTable items true =
  Js.join Js.LF
    (Js.join "  " (map (fun col => Js.padEnd col (width col)) columns) ::
     Js.join "  " (map (fun col => Js.repeat Table.DASH (width col)) columns) ::
     map (fun item =>
            Js.join "  "
              (map (fun col => Js.padEnd (cell item col) (width col)) columns))
         items) /\
  String.length
    (Js.join "  " (map (fun col => Js.padEnd col (width col)) columns)) =
  line_width (map width columns) /\
  Forall (fun line => String.length line = line_width (map width columns))
    (map (fun item =>
            Js.join "  "
              (map (fun col => Js.padEnd (cell item col) (width col)) columns))
         items).
Proof.
  intros Hne.
  assert (Hw : mapi code_width columns = map width columns).
  { apply (code_widths columns []). reflexivity. }
  split; [|split].
  - transitivity
      (Js.join Js.LF
         (Js.join "  "
            (mapi (fun i col =>
                     Js.padEnd col (nth i (mapi code_width columns) 0%nat))
                  columns) ::
          Js.join "  "
            (map (fun w => Js.repeat Table.DASH w) (mapi code_width columns)) ::
          map (fun row =>
                 Js.join "  "
                   (mapi (fun i x =>
                            Js.padEnd x
                              (nth i (mapi code_width columns) 0%nat))
                         row))
              rows)).
    { destruct items as [|item rest]; [congruence | reflexivity]. }
    rewrite Hw. f_equal. f_equal; [|f_equal].
    + f_equal. pose proof (padded_by_name (fun c => c) columns []) as H.
      rewrite map_id in H. exact H.
    + f_equal. apply map_map.
    + unfold rows. rewrite map_map. apply map_ext. intros item. f_equal.
      apply (padded_by_name (cell item) columns []).
  - apply (padded_length (fun c => c)). intros c _. unfold width. lia.
  - rewrite Forall_map. apply Forall_forall. intros item Hitem.
    apply (padded_length (cell item)). intros c _. now apply cell_fits.
Qed.

End TableLines.

(** X10.  Without colours the table of a list that is not empty is the
    join by line feeds of a header, a separator and one row per item.  The
    width of a column is the greatest length among its name and its cells;
    the header is the column names, the separator the dashes and every row
    the cells of its item, each padded to the width of its column and
    joined by two spaces; the header and every row have the same length,
    the widths and the spaces between the columns together. *)
Theorem formatTable_aligned (items : list object) :
  items <> [] ->
  let columns := gather_columns items in
  let cell item col := Table.formatCellValue (Obj.get col item) in
  let width col :=
    Nat.max (String.length col)
      (fold_left (fun mx item => Nat.max mx (String.length (cell item col)))
         items 0%nat) in
  let header :=
    Js.join "  " (map (fun col => Js.padEnd col (width col)) columns) in
  let separator :=
    Js.join "  " (map (fun col => Js.repeat Table.DASH (width col)) columns) in
  let dataLines :=
    map (fun item =>
           Js.join "  "
             (map (fun col => Js.padEnd (cell item col) (width col)) columns))
        items in
  Table.formatTable items true =
    Js.join Js.LF (header :: separator :: dataLines) /\
  String.length header = line_width (map width columns) /\
  Forall (fun line => String.length line = line_width (map width columns))
    dataLines.
Proof. intros Hne. exact (table_lines_explicit items Hne). Qed.

(** The theorem on the two products of the tests: both rows are as long as
    the header, 18 characters. *)
Lemma formatTable_aligned_witness :
  Table.formatTable
    [[("id", VStr "prod_123"); ("name", VStr "Pro Plan")];
     [("id", VStr "prod_456"); ("name", VStr "Starter")]] true =
  Js.join Js.LF
    ["id        name    ";
     Js.repeat Table.DASH 8 ++ "  " ++ Js.repeat Table.DASH 8;
     "prod_123  Pro Plan";
     "prod_456  Starter "] /\
  Forall (fun line => String.length line = 18%nat)
    ["prod_123  Pro Plan"; "prod_456  Starter "].
Proof.
  destruct (formatTable_aligned
              [[("id", VStr "prod_123"); ("name", VStr "Pro Plan")];
               [("id", VStr "prod_456"); ("name", VStr "Starter")]])
    as [Htable [_ Hrows]].
  - discriminate.
  - split; [exact Htable | exact Hrows].
Defined.

(* ------------------------------------------------------------------ *)
(** ** JSON on one line *)

Section JsonLines.









End JsonLines.


(* ------------------------------------------------------------------ *)
(** ** Unknown formats *)

(** X12.  A format that is none of count, id, json, jsonl, csv, tsv and
    table is rendered as compact, by the list and by the item dispatcher. *)
Theorem unknown_format_is_compact
    (format resourceType : string) (items : list object) (data : object)
    (p : Compact.PaginationMeta) (fields : option (list string))
    (detail quiet noColor : bool) :
  ~ In format ["count"; "id"; "json"; "jsonl"; "csv"; "tsv"; "table"] ->
  Output.formatList resourceType items p
    (Output.mkOptions format fields detail quiet noColor) =
  Output.formatList resourceType items p
    (Output.mkOptions "compact" fields detail quiet noColor) /\
  Output.formatItem resourceType data
    (Output.mkOptions format fields detail quiet noColor) =
  Output.formatItem resourceType data
    (Output.mkOptions "compact" fields detail quiet noColor).
Proof.
  intros Hnot.
  assert (Hneq : forall known,
            In known ["count"; "id"; "json"; "jsonl"; "csv"; "tsv"; "table"] ->
            (format =? known) = false).
  { intros known Hin. apply String.eqb_neq. intros ->. contradiction. }
  unfold Output.formatList, Output.formatItem. cbn [Output.format].
  rewrite (Hneq "count"), (Hneq "id"), (Hneq "json"), (Hneq "jsonl"),
          (Hneq "csv"), (Hneq "tsv"), (Hneq "table")
    by (simpl; tauto).
  split; reflexivity.
Qed.

(** The theorem on the format yaml. *)
Lemma unknown_format_is_compact_witness :
  Output.formatItem "product" [("id", VStr "prod_123")]
    (Output.mkOptions "yaml" None false false false) =
  "product id=prod_123".
Proof.
  destruct (unknown_format_is_compact "yaml" "product" []
              [("id", VStr "prod_123")] (Compact.mkPagination 1 10 0)
              None false false false) as [_ H].
  - simpl. intuition discriminate.
  - rewrite H. reflexivity.
Defined.

(* ------------------------------------------------------------------ *)
(** ** Error messages *)

Section ErrorFacts.

Lemma prefix_join_hd (p sep x : string) (rest : list string) :
  String.prefix p x = true -> String.prefix p (Js.join sep (x :: rest)) = true.
Proof.
  intros H. destruct rest as [|y rest]; [exact H|].
  rewrite join_cons_cons. now apply prefix_app.
Qed.

Lemma error_lines_head (error : Errors.CLIError) :
  exists first rest,
    Errors.error_lines error = first :: rest /\
    String.prefix "Error: " first = true.
Proof.
  unfold Errors.error_lines.
  repeat match goal with
         | |- context [if (?a =? ?b)%string then _ else _] =>
             destruct (a =? b)%string
         end;
    cbn [List.app]; eexists; eexists;
    (split; [reflexivity | first [reflexivity | apply prefix_refl_app]]).
Qed.

(** The text after the type in the compact error: nothing, or further
    parts after a space. *)
Lemma join_tail (x : string) (rest : list string) :
  exists tail,
    Js.join " " (x :: rest) = x ++ tail /\
    (tail = EmptyString \/ String.prefix " " tail = true).
Proof.
  destruct rest as [|y rest].
  - exists EmptyString. split; [symmetry; apply app_empty_r | now left].
  - exists (" " ++ Js.join " " (y :: rest)).
    split; [reflexivity | right; apply prefix_refl_app].
Qed.

End ErrorFacts.

(** X13.  The human-readable rendering of every error, of a known type or
    not, starts with [Error: ]. *)
Theorem formatError_starts_with_Error (error : Errors.CLIError) :
  String.prefix "Error: " (Errors.formatError error) = true.
Proof.
  unfold Errors.formatError.
  destruct (error_lines_head error) as [first [rest [-> Hfirst]]].
  now apply prefix_join_hd.
Qed.

(** X14.  The compact rendering of every error starts with the word error,
    then the code when there is one, then the token [type=<type>]; what
    follows, if anything, starts with a space. *)
Theorem formatErrorCompact_type_token (error : Errors.CLIError) :
  exists tail,
    Errors.formatErrorCompact error =
    "error" ++
    match Errors.code error with
    | Some c => " code=" ++ Js.num_to_string c
    | None => EmptyString
    end ++
    " type=" ++ Errors.type error ++ tail /\
    (tail = EmptyString \/ String.prefix " " tail = true).
Proof.
  unfold Errors.formatErrorCompact, Errors.error_parts.
  match goal with
  | |- context [List.app [("type=" ++ Errors.type error)%string] ?r] =>
      destruct (join_tail ("type=" ++ Errors.type error) r)
        as [tail [Htail Hspace]]
  end.
  exists tail. split; [|exact Hspace].
  cbn [List.app] in *.
  destruct (Errors.code error) as [c|]; cbn [List.app].
  - rewrite !join_cons_cons, Htail. reflexivity.
  - rewrite join_cons_cons, Htail. reflexivity.
Qed.

(* ------------------------------------------------------------------ *)
(** ** The list request *)

Section ListRequest.

Lemma clean_set (k : string) (v : value) (req : object) :
  Fields.is_nullish v = false -> clean req -> clean (Obj.set k v req).
Proof.
  intros Hv Hreq k' v'. rewrite lookup_set.
  destruct (String.eqb k' k); [|apply Hreq].
  intros H. inversion H; subst. exact Hv.
Qed.

Lemma clean_map_flags (fs : list Handler.FlagDef) (given req : object) :
  clean req -> clean (Handler.map_flags fs given req).
Proof.
  revert req. induction fs as [|flag fs IH]; intros req Hreq; [exact Hreq|].
  cbn [Handler.map_flags]. apply IH.
  destruct (Fields.is_nullish _) eqn:E; cbn [negb]; [exact Hreq|].
  now apply clean_set.
Qed.

Lemma truthy_not_nullish (v : value) :
  Handler.truthy v = true -> Fields.is_nullish v = false.
Proof. destruct v; try reflexivity; discriminate. Qed.

Lemma lookup_map_flags (k : string) (fs : list Handler.FlagDef)
    (given req : object) :
  Forall (fun flag => Handler.sdkField flag <> k) fs ->
  Obj.lookup k (Handler.map_flags fs given req) = Obj.lookup k req.
Proof.
  intros H. revert req. induction H as [|flag fs Hflag _ IH]; intros req;
    [reflexivity|].
  cbn [Handler.map_flags]. rewrite IH.
  destruct (negb _); [|reflexivity].
  rewrite lookup_set. destruct (String.eqb_spec k (Handler.sdkField flag));
    [congruence | reflexivity].
Qed.

End ListRequest.

(** X15.  No parameter of a list request is [null] or [undefined]: a flag
    without a value is left out. *)
Theorem buildListRequest_no_nullish
    (operation : Handler.OperationDef) (options : Handler.ExecuteOptions)
    (k : string) (v : value) :
  Obj.lookup k (Handler.buildListRequest operation options) = Some v ->
  Fields.is_nullish v = false.
Proof.
  revert k v. change (clean (Handler.buildListRequest operation options)).
  unfold Handler.buildListRequest.
  assert (Hpage :
    clean match Handler.paginatable operation with
          | Some false => []
          | _ =>
              Obj.set "page"
                (VNum match Handler.page options with
                      | Some n => n | None => 1%Z end)
                (Obj.set "limit"
                   (VNum match Handler.limit options with
                         | Some n => n | None => 10%Z end) [])
          end).
  { destruct (Handler.paginatable operation) as [[|]|];
      repeat apply clean_set; try reflexivity; intros k v H; discriminate H. }
  assert (Hflags :
    clean match Handler.op_flags operation with
          | Some fs =>
              Handler.map_flags fs (Handler.flags options)
                match Handler.paginatable operation with
                | Some false => []
                | _ =>
                    Obj.set "page"
                      (VNum match Handler.page options with
                            | Some n => n | None => 1%Z end)
                      (Obj.set "limit"
                         (VNum match Handler.limit options with
                               | Some n => n | None => 10%Z end) [])
                end
          | None =>
              match Handler.paginatable operation with
              | Some false => []
              | _ =>
                  Obj.set "page"
                    (VNum match Handler.page options with
                          | Some n => n | None => 1%Z end)
                    (Obj.set "limit"
                       (VNum match Handler.limit options with
                             | Some n => n | None => 10%Z end) [])
              end
          end).
  { destruct (Handler.op_flags operation); [now apply clean_map_flags|].
    exact Hpage. }
  destruct (Handler.truthy _) eqn:Horg; [|exact Hflags].
  apply clean_set; [now apply truthy_not_nullish | exact Hflags].
Qed.

(** The theorem on a request whose only flag has no value. *)
Lemma buildListRequest_no_nullish_witness :
  Fields.is_nullish (VNum 10) = false.
Proof.
  apply (buildListRequest_no_nullish
           (Handler.mkOperation "list" "list"
              (Some [Handler.mkFlag "query" "query" "Search" "string" None])
              None None)
           (Handler.mkExecute [] [("query", VNull)]
              (Output.mkOptions "compact" None false false false) None None)
           "limit" (VNum 10)).
  reflexivity.
Defined.

(** X16.  Unless the operation is marked as not paginatable, the list
    request carries limit and page, 10 and 1 when the options give none,
    whatever the flags are, as long as no flag is mapped to these two
    names. *)
Theorem buildListRequest_pagination
    (operation : Handler.OperationDef) (options : Handler.ExecuteOptions) :
  Handler.paginatable operation <> Some false ->
  Forall (fun flag => Handler.sdkField flag <> "limit" /\
                      Handler.sdkField flag <> "page")
         match Handler.op_flags operation with Some fs => fs | None => [] end ->
  Obj.lookup "limit" (Handler.buildListRequest operation options) =
    Some (VNum match Handler.limit options with
               | Some n => n | None => 10%Z end) /\
  Obj.lookup "page" (Handler.buildListRequest operation options) =
    Some (VNum match Handler.page options with
               | Some n => n | None => 1%Z end).
Proof.
  intros Hpag Hflags. unfold Handler.buildListRequest.
  assert (Hl : Forall (fun flag => Handler.sdkField flag <> "limit")
                 match Handler.op_flags operation with
                 | Some fs => fs | None => [] end).
  { eapply Forall_impl; [|exact Hflags]. intros f [H _]. exact H. }
  assert (Hp : Forall (fun flag => Handler.sdkField flag <> "page")
                 match Handler.op_flags operation with
                 | Some fs => fs | None => [] end).
  { eapply Forall_impl; [|exact Hflags]. intros f [_ H]. exact H. }
  destruct (Handler.truthy _); rewrite ?lookup_set; cbn [String.eqb Ascii.eqb Bool.eqb];
    destruct (Handler.op_flags operation) as [fs|];
    rewrite ?(lookup_map_flags "limit" fs _ _ Hl),
            ?(lookup_map_flags "page" fs _ _ Hp);
    destruct (Handler.paginatable operation) as [[|]|]; try congruence;
    split; reflexivity.
Qed.

(** The theorem on a request with a filter flag and page 3. *)
Lemma buildListRequest_pagination_witness :
  let request :=
    Handler.buildListRequest
      (Handler.mkOperation "list" "list"
         (Some [Handler.mkFlag "is-recurring" "isRecurring" "Filter" "boolean"
                  None])
         None None)
      (Handler.mkExecute [] [("isRecurring", VBool true)]
         (Output.mkOptions "compact" None false false false) None (Some 3%Z)) in
  Obj.lookup "limit" request = Some (VNum 10) /\
  Obj.lookup "page" request = Some (VNum 3).
Proof.
  apply buildListRequest_pagination.
  - discriminate.
  - repeat constructor; discriminate.
Defined.

(* ------------------------------------------------------------------ *)
(** ** Hints and projected values *)

Section HintFacts.

Lemma join_snoc (sep x y : string) (l : list string) :
  Js.join sep ((x :: l) ++ [y])%list = Js.join sep (x :: l) ++ sep ++ y.
Proof.
  revert x. induction l as [|z l IH]; intros x; [reflexivity|].
  change (((x :: z :: l) ++ [y])%list) with (x :: ((z :: l) ++ [y]))%list.
  change ((z :: l) ++ [y])%list with (z :: (l ++ [y]))%list.
  rewrite join_cons_cons.
  change (z :: (l ++ [y]))%list with ((z :: l) ++ [y])%list.
  rewrite IH, join_cons_cons. now rewrite !app_assoc_str.
Qed.

Lemma getHint_known (error : Errors.CLIError) :
  In (Errors.type error) hinted_types ->
  exists c h, Errors.getHint error = Some (String c h).
Proof.
  unfold hinted_types, Errors.getHint. intros Hin. simpl in Hin.
  repeat match goal with
         | H : _ \/ _ |- _ => destruct H as [H|H]
         | H : _ = Errors.type error |- _ => rewrite <- H; clear H
         | H : False |- _ => destruct H
         end;
    cbn; try (destruct (Errors.given (Errors.resource error)));
    eexists; eexists; reflexivity.
Qed.

Lemma error_parts_split (error : Errors.CLIError) :
  exists body,
    Errors.error_parts error =
    (("error" :: body) ++
     match Errors.getHint error with
     | Some (String c h) => [Errors.quoted "hint" (String c h)]
     | _ => []
     end)%list.
Proof.
  unfold Errors.error_parts.
  match goal with
  | |- exists body,
        (?e ++ (?c ++ (?t ++ (?r ++ (?i ++ (?f ++ (?m ++ ?h)))))))%list = _ =>
      exists (c ++ t ++ r ++ i ++ f ++ m)%list
  end.
  rewrite !app_assoc. reflexivity.
Qed.

End HintFacts.

(** X17.  For each of the nine error types the hint table knows, the
    compact rendering ends with the hint, in double quotes after
    [hint=]. *)
Theorem formatErrorCompact_ends_with_hint (error : Errors.CLIError) :
  In (Errors.type error) hinted_types ->
  exists hint before,
    Errors.getHint error = Some hint /\
    hint <> EmptyString /\
    Errors.formatErrorCompact error =
    before ++ " hint=" ++ String Js.DQ hint ++ String Js.DQ EmptyString.
Proof.
  intros Hknown. destruct (getHint_known error Hknown) as [c [h Hhint]].
  exists (String c h).
  destruct (error_parts_split error) as [body Hparts].
  exists (Js.join " " ("error" :: body)).
  split; [exact Hhint|]. split; [discriminate|].
  unfold Errors.formatErrorCompact. rewrite Hparts, Hhint.
  rewrite join_snoc. reflexivity.
Qed.

(** The theorem on the missing product of the tests. *)
Lemma formatErrorCompact_ends_with_hint_witness :
  exists hint before,
    Errors.getHint
      (Errors.mkError "ResourceNotFound" (Some 404%Z) (Some "product")
         (Some "prod_x") None None) = Some hint /\
    hint <> EmptyString /\
    Errors.formatErrorCompact
      (Errors.mkError "ResourceNotFound" (Some 404%Z) (Some "product")
         (Some "prod_x") None None) =
    before ++ " hint=" ++ String Js.DQ hint ++ String Js.DQ EmptyString.
Proof.
  apply formatErrorCompact_ends_with_hint. simpl. tauto.
Defined.

(** X18.  Whatever the selector, an explicit list being one of names that
    are no inherited name and no array index, every value of a projection
    is the value the item has for that key, and every key other than [id]
    is a key of the item. *)
Theorem projection_values_from_item
    (data : object) (selector : Fields.FieldSelector) (k : string) (v : value) :
  match selector with
  | Fields.Explicit fs => Forall (fun f => ordinary_name f = true) fs
  | _ => True
  end ->
  Obj.lookup k (Fields.selectFields data selector) = Some v ->
  v = Obj.get k data /\ (k = "id" \/ In k (Obj.keys data)).
Proof.
  intros _. destruct selector as [fs| |].
  - intros H. cbn [Fields.selectFields] in H.
    pose proof (explicit_loop_values fs data [] ltac:(discriminate) k v H)
      as Hd.
    split; [unfold Obj.get; now rewrite Hd|].
    right. apply lookup_In_keys. now exists v.
  - cbn [Fields.selectFields]. intros H.
    split; [unfold Obj.get; now rewrite H|].
    right. apply lookup_In_keys. now exists v.
  - rewrite minimal_shape.
    destruct (find _ _) as [k'|] eqn:Hfind.
    + apply find_some in Hfind. destruct Hfind as [Hin Hhas].
      apply andb_true_iff in Hhas. destruct Hhas as [Hhas _].
      cbn [Obj.lookup].
      destruct (String.eqb_spec k "id") as [-> | Hid].
      * intros H. inversion H. split; [reflexivity | now left].
      * destruct (String.eqb_spec k k') as [-> | Hk]; [|discriminate].
        intros H. inversion H. split; [reflexivity|].
        right. apply lookup_In_keys. now apply has_true.
    + cbn [Obj.lookup].
      destruct (String.eqb_spec k "id") as [-> | Hid]; [|discriminate].
      intros H. inversion H. split; [reflexivity | now left].
Qed.

(** The theorem on the email of a projection on the email alone. *)
Lemma projection_values_from_item_witness :
  VStr "a@b.c" =
  Obj.get "email" [("id", VStr "c1"); ("email", VStr "a@b.c")] /\
  ("email" = "id" \/
   In "email" (Obj.keys [("id", VStr "c1"); ("email", VStr "a@b.c")])).
Proof.
  apply (projection_values_from_item
           [("id", VStr "c1"); ("email", VStr "a@b.c")]
           (Fields.Explicit ["email"])).
  - repeat constructor.
  - reflexivity.
Defined.
